(** * HTTP transport router of playwright-mcp: sessions, adapters, health

    A shallow embedding of the MCP transport module (the second source
    document: [start], [startStdioTransport], [handleSSE], [handleHealth],
    [handleStreamable], [startHttpTransport]) and the properties the
    specification states about it.

    The module is an event-driven program: Node calls the 'request' listener
    for every inbound request, the listener runs until its next [await], and
    the rest of it runs when the awaited promise settles.  The embedding
    follows that shape.  A [server] value holds the two session maps, the
    streamable transport objects (they are mutated in place, so they live in
    a store and the map holds references), the suspended handlers, the
    'close' listeners and a log of the calls made to the collaborators.
    [step] runs one synchronous segment of the source in reaction to one
    [event]; [run] folds it over a list of events.

    Everything the source does not compute itself enters through the events:
    the outcome of the URL constructor, the random ids, the clock and the
    process readings, the outcome of [mcpServer.connect] (module [server.js]
    is not part of the sources; it may resolve or reject), and what the SDK
    transport does with a request.  The [await] of a collaborator's promise
    is a point where other events may be handled first, as section 5 of the
    specification says of the engine connect and of message forwarding; a
    run in which the promise settles at once is the run where the settling
    event comes next.

    Three neighbours of the module are embedded after it: the health-check
    patch, a listener put before the router on the same server; the upload
    tool (the first source document), whose [handle] is a function of the
    answers of S3, the file system and the file chooser; and the Docker
    Compose runner, a shell script under [set -e], as a small monad of
    traces and exit statuses. *)

From Stdlib Require Import String ZArith List.
From stdpp Require Import base gmap strings list fin_maps.

Local Open Scope string_scope.
Local Open Scope list_scope.
Local Open Scope Z_scope.

(** ** Platform values *)

(** The two members of a [URL] object the module reads: [url.pathname] and
    [url.searchParams.get('sessionId')] ([None] is JavaScript's [null]). *)
Record URL := {
  pathname : string;
  searchParams_get_sessionId : option string
}.

(** [http.IncomingMessage], restricted to what the module reads. [None] in
    [headers_mcp_session_id] is [undefined]: the header is absent. *)
Record IncomingMessage := {
  method : string;
  url : string;
  headers_mcp_session_id : option string
}.

(** A finite IEEE double, [mantissa * 2 ^ exponent]. *)
Record double := { mantissa : Z; exponent : Z }.

(** [process.memoryUsage()]. *)
Record MemoryUsage := {
  rss : Z; heapTotal : Z; heapUsed : Z; external : Z; arrayBuffers : Z
}.

(** What the platform answers while one request is handled. *)
Record Platform := {
  (** [new URL(`http://localhost${req.url}`)]; [None]: the constructor throws *)
  new_URL : option URL;
  (** the id [new SSEServerTransport] draws with [randomUUID()] *)
  randomUUID : string;
  (** [new Date().toISOString()] *)
  Date_toISOString : string;
  (** [process.env.npm_package_version] *)
  npm_package_version : option string;
  (** [process.uptime()] *)
  process_uptime : double;
  (** [process.memoryUsage()] *)
  process_memoryUsage : MemoryUsage;
  (** [process.pid] *)
  process_pid : Z
}.

(** JavaScript truthiness of a [string | undefined | null] value: the
    string itself when it is present and not empty. *)
Definition truthy (v : option string) : option string :=
  match v with
  | Some s => if String.eqb s "" then None else Some s
  | None => None
  end.

(** [v || d] on strings. *)
Definition or_else (v : option string) (d : string) : string :=
  match truthy v with
  | Some s => s
  | None => d
  end.

(** ** Transports *)

(** An [SSEServerTransport]. Its [sessionId] is drawn by the constructor and
    never changes; [sse_obj] is the object's identity (the number of the
    request that allocated it). *)
Record SSEServerTransport := {
  sse_obj : nat;
  sse_sessionId : string
}.

(** The [sessionIdGenerator] option given to a streamable transport:
    [() => sessionId] (line 218) or [() => crypto.randomUUID()] (line 251). *)
Inductive generator :=
| GenHeader (sessionId : string)
| GenRandomUUID.

(** The fields of a [StreamableHTTPServerTransport] the module and the SDK's
    initialization write. *)
Record StreamableHTTPServerTransport := {
  sessionIdGenerator : generator;
  sessionId : option string;
  initialized : bool
}.

(** A transport handed to [mcpServer.connect]. A streamable transport is
    named by its reference in the store. *)
Inductive transport_ref :=
| Stdio
| Sse (t : SSEServerTransport)
| Streamable (t : nat).

(** ** Responses and the log of outward calls *)

Record sessionCounts := { sse : nat; streamable : nat; total : nat }.

(** The [healthData] object literal of [handleHealth]. *)
Record healthData := {
  status : string;
  timestamp : string;
  version : string;
  uptime : double;
  sessions : sessionCounts;
  memory : MemoryUsage;
  pid : Z
}.

Inductive payload :=
| Text (s : string)
(** [JSON.stringify(healthData, null, 2)] *)
| Json (h : healthData).

Record response := {
  statusCode : Z;
  headers : list (string * string);
  body : payload
}.

Inductive effect :=
(** [res.statusCode = ..; res.setHeader(..); res.end(..)] on request [r] *)
| Respond (r : nat) (resp : response)
(** [mcpServer.connect(serverBackendFactory, transport, flag)] is called *)
| Connect (t : transport_ref) (flag : bool)
(** the promise of that call resolves, or rejects *)
| ConnectResolved (t : transport_ref)
| ConnectRejected (t : transport_ref)
(** [transport.handlePostMessage(req, res)] for request [r] *)
| HandlePostMessage (t : SSEServerTransport) (r : nat)
(** [transport.handleRequest(req, res)] for request [r] *)
| HandleRequest (t : nat) (r : nat)
| TraceDebug (msg : string)
| TestDebug (msg : string)
(** the listener's promise for request [r] rejects: an exception escaped *)
| Rejected (r : nat).

(** ** Server state *)

(** Where a handler is suspended. The handler of request [r] allocates at
    most one streamable transport, stored under reference [r]. *)
Inductive continuation :=
(** [handleSSE], line 173: then [res.on('close', ..)] *)
| AwaitConnectSse (transport : SSEServerTransport)
(** [handleStreamable], line 239 (the callback awaits [connect], line 221):
    then [sessions.set] and [handleRequest] *)
| AwaitConnectEager (sessionId : string)
(** [handleStreamable], line 266: the SDK is handling the request on the
    fresh transport and has not initialized it *)
| AwaitHandleFresh
(** [handleStreamable], line 254, reached from inside line 266: then
    [sessions.set] *)
| AwaitConnectFresh (sessionId : string).

Record server := {
  sseSessions : gmap string SSEServerTransport;
  streamableSessions : gmap string nat;
  (** the streamable transport objects *)
  transports : gmap nat StreamableHTTPServerTransport;
  (** handlers waiting at an [await], by request *)
  suspended : gmap nat continuation;
  (** [res.on('close', ..)] listeners, by request, with the transport the
      closure captured *)
  closeListeners : gmap nat SSEServerTransport;
  (** responses whose 'close' event has fired *)
  resClosed : gset nat;
  (** number of requests received so far *)
  received : nat;
  log : list effect
}.

Definition emit (e : effect) (s : server) : server :=
  {| sseSessions := sseSessions s; streamableSessions := streamableSessions s;
     transports := transports s; suspended := suspended s;
     closeListeners := closeListeners s; resClosed := resClosed s;
     received := received s; log := log s ++ [e] |}.

Definition with_sseSessions (m : gmap string SSEServerTransport) (s : server) : server :=
  {| sseSessions := m; streamableSessions := streamableSessions s;
     transports := transports s; suspended := suspended s;
     closeListeners := closeListeners s; resClosed := resClosed s;
     received := received s; log := log s |}.

Definition with_streamableSessions (m : gmap string nat) (s : server) : server :=
  {| sseSessions := sseSessions s; streamableSessions := m;
     transports := transports s; suspended := suspended s;
     closeListeners := closeListeners s; resClosed := resClosed s;
     received := received s; log := log s |}.

Definition with_transports (m : gmap nat StreamableHTTPServerTransport) (s : server) : server :=
  {| sseSessions := sseSessions s; streamableSessions := streamableSessions s;
     transports := m; suspended := suspended s;
     closeListeners := closeListeners s; resClosed := resClosed s;
     received := received s; log := log s |}.

Definition with_suspended (m : gmap nat continuation) (s : server) : server :=
  {| sseSessions := sseSessions s; streamableSessions := streamableSessions s;
     transports := transports s; suspended := m;
     closeListeners := closeListeners s; resClosed := resClosed s;
     received := received s; log := log s |}.

Definition with_closeListeners (m : gmap nat SSEServerTransport) (s : server) : server :=
  {| sseSessions := sseSessions s; streamableSessions := streamableSessions s;
     transports := transports s; suspended := suspended s;
     closeListeners := m; resClosed := resClosed s;
     received := received s; log := log s |}.

Definition with_resClosed (c : gset nat) (s : server) : server :=
  {| sseSessions := sseSessions s; streamableSessions := streamableSessions s;
     transports := transports s; suspended := suspended s;
     closeListeners := closeListeners s; resClosed := c;
     received := received s; log := log s |}.

Definition with_received (n : nat) (s : server) : server :=
  {| sseSessions := sseSessions s; streamableSessions := streamableSessions s;
     transports := transports s; suspended := suspended s;
     closeListeners := closeListeners s; resClosed := resClosed s;
     received := n; log := log s |}.

(** [res.statusCode = code; res.end(text)] *)
Definition end_with (r : nat) (code : Z) (text : string) : server -> server :=
  emit (Respond r {| statusCode := code; headers := []; body := Text text |}).

Definition suspend (r : nat) (k : continuation) (s : server) : server :=
  with_suspended (<[r := k]> (suspended s)) s.

Definition finish (r : nat) (s : server) : server :=
  with_suspended (delete r (suspended s)) s.

(** ** The handlers

    Each takes the number [r] of the request it serves: [res] in the source
    is the response of request [r]. *)

(** [handleHealth], lines 185-210. *)
Definition handleHealth (r : nat) (req : IncomingMessage) (p : Platform)
    (s : server) : server :=
  if negb (String.eqb (method req) "GET") then
    emit (Respond r {| statusCode := 405;
                       headers := [("Allow", "GET")];
                       body := Text "Method not allowed" |}) s
  else
    let healthData :=
      {| status := "ok";
         timestamp := Date_toISOString p;
         version := or_else (npm_package_version p) "unknown";
         uptime := process_uptime p;
         sessions :=
           {| sse := size (sseSessions s);
              streamable := size (streamableSessions s);
              total := (size (sseSessions s) + size (streamableSessions s))%nat |};
         memory := process_memoryUsage p;
         pid := process_pid p |} in
    emit (Respond r {| statusCode := 200;
                       headers := [("Content-Type", "application/json")];
                       body := Json healthData |}) s.

(** [handleSSE], lines 154-183, up to the [await] of line 173. *)
Definition handleSSE (r : nat) (req : IncomingMessage) (url : URL)
    (p : Platform) (s : server) : server :=
  if String.eqb (method req) "POST" then
    match truthy (searchParams_get_sessionId url) with
    | None => end_with r 400 "Missing sessionId" s
    | Some sessionId =>
        match sseSessions s !! sessionId with
        | None => end_with r 404 "Session not found" s
        | Some transport => emit (HandlePostMessage transport r) s
        end
    end
  else if String.eqb (method req) "GET" then
    let transport := {| sse_obj := r; sse_sessionId := randomUUID p |} in
    let s := with_sseSessions (<[sse_sessionId transport := transport]> (sseSessions s)) s in
    let s := emit (TraceDebug ("create SSE session: " +:+ sse_sessionId transport)) s in
    let s := emit (Connect (Sse transport) false) s in
    suspend r (AwaitConnectSse transport) s
  else
    end_with r 405 "Method not allowed" s.

(** The rest of [handleSSE] (lines 174-178) once the connect of line 173
    has settled. A rejection leaves the function at the [await]. *)
Definition handleSSE_connected (r : nat) (transport : SSEServerTransport)
    (ok : bool) (s : server) : server :=
  let s := finish r s in
  if ok then
    let s := emit (ConnectResolved (Sse transport)) s in
    with_closeListeners (<[r := transport]> (closeListeners s)) s
  else
    let s := emit (ConnectRejected (Sse transport)) s in
    emit (Rejected r) s.

(** The listener of lines 174-177, run when the response of request [r]
    emits 'close'. *)
Definition sse_close_listener (transport : SSEServerTransport) (s : server) : server :=
  let s := emit (TraceDebug ("delete SSE session: " +:+ sse_sessionId transport)) s in
  with_sseSessions (delete (sse_sessionId transport) (sseSessions s)) s.

(** The [onclose] handler both branches of [handleStreamable] install
    (lines 225-230 and 259-264, the same body); [t] is the transport the
    closure captured, read when the handler runs. *)
Definition onclose (t : nat) (s : server) : server :=
  match transports s !! t with
  | None => s
  | Some transport =>
      match truthy (sessionId transport) with
      | None => s
      | Some id =>
          let s := with_streamableSessions (delete id (streamableSessions s)) s in
          emit (TestDebug ("delete http session: " +:+ id)) s
      end
  end.

(** [handleStreamable], lines 212-272, up to its first [await]. *)
Definition handleStreamable (r : nat) (req : IncomingMessage) (s : server) : server :=
  match truthy (headers_mcp_session_id req) with
  | Some sessionId =>
      match streamableSessions s !! sessionId with
      | None =>
          (* lines 217-235: construct, then overwrite the two fields *)
          let localTransport :=
            {| sessionIdGenerator := GenHeader sessionId;
               sessionId := Some sessionId;
               initialized := true |} in
          let s := with_transports (<[r := localTransport]> (transports s)) s in
          (* lines 238-239 run the callback of lines 219-222 *)
          let s := emit (TestDebug ("create http session: " +:+ sessionId)) s in
          let s := emit (Connect (Streamable r) true) s in
          suspend r (AwaitConnectEager sessionId) s
      | Some transport => emit (HandleRequest transport r) s
      end
  | None =>
      if String.eqb (method req) "POST" then
        let transport :=
          {| sessionIdGenerator := GenRandomUUID;
             sessionId := None;
             initialized := false |} in
        let s := with_transports (<[r := transport]> (transports s)) s in
        let s := emit (HandleRequest r r) s in
        suspend r AwaitHandleFresh s
      else
        end_with r 400 "Invalid request" s
  end.

(** Lines 242-244 once the callback awaited at line 239 has settled. *)
Definition handleStreamable_eager_connected (r : nat) (sessionId : string)
    (ok : bool) (s : server) : server :=
  let s := finish r s in
  if ok then
    let s := emit (ConnectResolved (Streamable r)) s in
    let s := with_streamableSessions (<[sessionId := r]> (streamableSessions s)) s in
    emit (HandleRequest r r) s
  else
    let s := emit (ConnectRejected (Streamable r)) s in
    emit (Rejected r) s.

(** The SDK initializes the fresh transport of request [r] while it handles
    that request: it calls the generator, stores the id, marks the transport
    initialized and calls [onsessioninitialized] (lines 252-256), which runs
    to the [await] of line 254. This is the sequence lines 232-240 imitate. *)
Definition sdk_initialize (r : nat) (uuid : string) (s : server) : server :=
  match transports s !! r with
  | None => s
  | Some transport =>
      let id := match sessionIdGenerator transport with
                | GenHeader h => h
                | GenRandomUUID => uuid
                end in
      let transport :=
        {| sessionIdGenerator := sessionIdGenerator transport;
           sessionId := Some id;
           initialized := true |} in
      let s := with_transports (<[r := transport]> (transports s)) s in
      let s := emit (TestDebug ("create http session: " +:+ id)) s in
      let s := emit (Connect (Streamable r) true) s in
      suspend r (AwaitConnectFresh id) s
  end.

(** Line 255 once the connect of line 254 has settled. *)
Definition onsessioninitialized_connected (r : nat) (sessionId : string)
    (ok : bool) (s : server) : server :=
  let s := finish r s in
  if ok then
    let s := emit (ConnectResolved (Streamable r)) s in
    with_streamableSessions (<[sessionId := r]> (streamableSessions s)) s
  else
    emit (ConnectRejected (Streamable r)) s.

(** The 'request' listener of [startHttpTransport], lines 277-285. *)
Definition on_request (req : IncomingMessage) (p : Platform) (s : server) : server :=
  let r := received s in
  let s := with_received (S r) s in
  match new_URL p with
  | None => emit (Rejected r) s
  | Some url =>
      if String.eqb (pathname url) "/health" then handleHealth r req p s
      else if String.prefix "/sse" (pathname url) then handleSSE r req url p s
      else handleStreamable r req s
  end.

(** ** Events and runs *)

Inductive event :=
(** Node emits 'request' *)
| Request (req : IncomingMessage) (p : Platform)
(** the [mcpServer.connect] awaited by the handler of request [r] settles *)
| ConnectSettled (r : nat) (ok : bool)
(** the SDK accepts the body of request [r] as an initialization and its
    random generator returns [uuid] *)
| Initialize (r : nat) (uuid : string)
(** [handleRequest] on the fresh transport of request [r] resolves without
    initializing it *)
| HandleSettled (r : nat)
(** the response of request [r] emits 'close' *)
| ResClose (r : nat)
(** the SDK closes streamable transport [t] and calls its [onclose] *)
| TransportClose (t : nat).

Definition step (e : event) (s : server) : server :=
  match e with
  | Request req p => on_request req p s
  | ConnectSettled r ok =>
      match suspended s !! r with
      | Some (AwaitConnectSse transport) => handleSSE_connected r transport ok s
      | Some (AwaitConnectEager sessionId) => handleStreamable_eager_connected r sessionId ok s
      | Some (AwaitConnectFresh sessionId) => onsessioninitialized_connected r sessionId ok s
      | _ => s
      end
  | Initialize r uuid =>
      match suspended s !! r with
      | Some AwaitHandleFresh => sdk_initialize r uuid s
      | _ => s
      end
  | HandleSettled r =>
      match suspended s !! r with
      | Some AwaitHandleFresh => finish r s
      | _ => s
      end
  | ResClose r =>
      if decide (r ∈ resClosed s) then s
      else
        let s := with_resClosed ({[r]} ∪ resClosed s) s in
        match closeListeners s !! r with
        | Some transport => sse_close_listener transport s
        | None => s
        end
  | TransportClose t => onclose t s
  end.

Definition run (evs : list event) (s : server) : server :=
  fold_left (fun s e => step e s) evs s.

(** ** Start-up *)

Record options := { host : option string; port : option Z }.

(** [startHttpTransport], lines 274-276: two empty maps. *)
Definition startHttpTransport : server :=
  {| sseSessions := ∅; streamableSessions := ∅; transports := ∅;
     suspended := ∅; closeListeners := ∅; resClosed := ∅;
     received := 0%nat; log := [] |}.

(** [startStdioTransport], lines 147-149. *)
Definition startStdioTransport : list effect := [Connect Stdio false].

Inductive process :=
| Http (s : server)
| StdioProcess (calls : list effect).

(** [start], lines 138-145. [startHttpServer] is not part of the sources;
    the listener is taken to be bound. The banner of lines 286-301 is
    written to the console and is not modelled. *)
Definition start (o : options) : process :=
  match port o with
  | Some _ => Http startHttpTransport
  | None => StdioProcess startStdioTransport
  end.

(** All connects a process has made after the HTTP events [evs]. *)
Definition calls_of (o : options) (evs : list event) : list effect :=
  match start o with
  | Http s => log (run evs s)
  | StdioProcess calls => calls
  end.

(** ** The routing rule, in the specification's words

    "path is exactly /health", "path starts with /sse", "anything else".
    [dispatch] names the handler each branch stands for. *)

Inductive branch := ToHealth | ToLegacy | ToStreamable.

Definition route_by_path (path : string) : branch :=
  if String.eqb path "/health" then ToHealth
  else if String.prefix "/sse" path then ToLegacy
  else ToStreamable.

Definition dispatch (b : branch) (r : nat) (req : IncomingMessage) (url : URL)
    (p : Platform) (s : server) : server :=
  match b with
  | ToHealth => handleHealth r req p s
  | ToLegacy => handleSSE r req url p s
  | ToStreamable => handleStreamable r req s
  end.

(** ** Concrete requests and platform answers used in the examples *)

Module Examples.

Definition parsed (path : string) (sessionId : option string) : option URL :=
  Some {| pathname := path; searchParams_get_sessionId := sessionId |}.

Definition platform (u : option URL) (uuid : string) : Platform :=
  {| new_URL := u;
     randomUUID := uuid;
     Date_toISOString := "2025-06-01T12:00:00.000Z";
     npm_package_version := None;
     process_uptime := {| mantissa := 5; exponent := -1 |};
     process_memoryUsage :=
       {| rss := 50000000; heapTotal := 20000000; heapUsed := 15000000;
          external := 1000000; arrayBuffers := 10000 |};
     process_pid := 4242 |}.

Definition request (m target : string) (header : option string) : IncomingMessage :=
  {| method := m; url := target; headers_mcp_session_id := header |}.

(** [GET /sse], the transport drawing id [uuid] *)
Definition get_sse (uuid : string) : event :=
  Request (request "GET" "/sse" None) (platform (parsed "/sse" None) uuid).

(** [POST /sse?sessionId=id] *)
Definition post_sse (id : string) : event :=
  Request (request "POST" ("/sse?sessionId=" +:+ id) None)
          (platform (parsed "/sse" (Some id)) "unused").

(** a request to [/mcp] *)
Definition mcp (m : string) (header : option string) : event :=
  Request (request m "/mcp" header) (platform (parsed "/mcp" None) "unused").

(** [GET /health] *)
Definition get_health : event :=
  Request (request "GET" "/health" None) (platform (parsed "/health" None) "unused").

(** A request line [GET *:x HTTP/1.1]: [new URL("http://localhost*:x")]
    throws, [x] is not a port. *)
Definition bad_target : event :=
  Request (request "GET" "*:x" None) (platform None "unused").

(** Two legacy sessions and one streamable session open. *)
Definition two_legacy_one_streamable : server :=
  run [get_sse "S1"; ConnectSettled 0 true;
       get_sse "S2"; ConnectSettled 1 true;
       mcp "POST" (Some "S3"); ConnectSettled 2 true] startHttpTransport.

End Examples.

(** ** Vocabulary of the statements *)

(** The answer of line 270-271. *)
Definition invalid_request : response :=
  {| statusCode := 400; headers := []; body := Text "Invalid request" |}.

(** A request that the router sends to the streamable adapter and whose
    [mcp-session-id] header is [id]. *)
Definition carries_session (id : string) (e : event) : Prop :=
  match e with
  | Request req p =>
      headers_mcp_session_id req = Some id
      /\ exists url, new_URL p = Some url
                     /\ route_by_path (pathname url) = ToStreamable
  | _ => False
  end.

(** [transport.handleRequest] called once for each of the requests numbered
    [first], [first + 1], ..., [count] of them. *)
Definition forwarded (t : nat) (first count : nat) : list effect :=
  map (HandleRequest t) (seq first count).

(** The state in which lines 217-239 leave the handler of request [r]. *)
Definition eager_suspended (r : nat) (id : string) (s : server) : server :=
  suspend r (AwaitConnectEager id)
    (emit (Connect (Streamable r) true)
       (emit (TestDebug ("create http session: " +:+ id))
          (with_transports
             (<[r := {| sessionIdGenerator := GenHeader id;
                        sessionId := Some id; initialized := true |}]>
                (transports s)) s))).

(** The flag the specification assigns to each kind of transport: [true]
    for a streamable transport, [false] for a legacy and for the stdio one. *)
Definition stateless_flag (t : transport_ref) : bool :=
  match t with
  | Streamable _ => true
  | Sse _ | Stdio => false
  end.

Definition flag_ok (e : effect) : Prop :=
  match e with
  | Connect t flag => flag = stateless_flag t
  | _ => True
  end.

(** ** Vocabulary for the legacy sessions *)

(** The event is not a request during which the platform draws id [U]. *)
Definition no_draw (U : string) (e : event) : Prop :=
  match e with
  | Request _ p => randomUUID p <> U
  | _ => True
  end.

(** The event does not settle the connect awaited by request [r]. *)
Definition not_settling (r : nat) (e : event) : Prop :=
  match e with
  | ConnectSettled r' _ => r' <> r
  | _ => True
  end.

(** No 'close' listener captured a transport with id [U], and a handler
    that still awaits the connect of such a transport belongs to a request
    in [exempt]. *)
Definition unlistened (U : string) (exempt : nat -> Prop) (s : server) : Prop :=
  (forall r t, closeListeners s !! r = Some t -> sse_sessionId t <> U)
  /\ (forall r t, suspended s !! r = Some (AwaitConnectSse t) ->
        sse_sessionId t = U -> exempt r).

(** [unlistened], and the entry [keep] of the legacy map under [U] when one
    is to be kept. *)
Definition guarded (U : string) (exempt : nat -> Prop)
    (keep : option SSEServerTransport) (s : server) : Prop :=
  unlistened U exempt s
  /\ (forall t, keep = Some t -> sseSessions s !! U = Some t).

(** The handler of request [r] awaits the connect of [t], without listener. *)
Definition connecting (r : nat) (t : SSEServerTransport) (s : server) : Prop :=
  suspended s !! r = Some (AwaitConnectSse t)
  /\ closeListeners s !! r = None /\ (r < received s)%nat.

(** The handler of request [r] is over and left no listener. *)
Definition quiet (r : nat) (s : server) : Prop :=
  suspended s !! r = None
  /\ closeListeners s !! r = None /\ (r < received s)%nat.

(** ** Invariants of the reachable states *)

(** Every entry of the streamable map refers to a transport that carries the
    key as its session id, is initialized, and whose stateless connect was
    called and has resolved. *)
Definition registered_sound (s : server) : Prop :=
  forall id t, streamableSessions s !! id = Some t ->
    exists tr, transports s !! t = Some tr
      /\ sessionId tr = Some id /\ initialized tr = true
      /\ In (Connect (Streamable t) true) (log s)
      /\ In (ConnectResolved (Streamable t)) (log s).

(** What a suspended handler knows about its own transport. *)
Definition continuation_sound (s : server) (r : nat) (k : continuation) : Prop :=
  match k with
  | AwaitConnectSse _ => True
  | AwaitHandleFresh =>
      exists tr, transports s !! r = Some tr /\ initialized tr = false
  | AwaitConnectEager id | AwaitConnectFresh id =>
      exists tr, transports s !! r = Some tr
        /\ sessionId tr = Some id /\ initialized tr = true
        /\ In (Connect (Streamable r) true) (log s)
  end.

Definition suspended_sound (s : server) : Prop :=
  forall r k, suspended s !! r = Some k -> continuation_sound s r k.

(** References, suspended handlers and listeners belong to requests already
    received. *)
Definition numbered_below (s : server) : Prop :=
  (forall t, is_Some (transports s !! t) -> (t < received s)%nat)
  /\ (forall r, is_Some (suspended s !! r) -> (r < received s)%nat)
  /\ (forall r, is_Some (closeListeners s !! r) -> (r < received s)%nat).

Definition sound (s : server) : Prop :=
  registered_sound s /\ suspended_sound s /\ numbered_below s.

(** ** Vocabulary for the outcome of a request *)




(** ** Vocabulary for the health report *)

(** The object [handleHealth] serializes when it runs in state [s]. *)
Definition health_data (p : Platform) (s : server) : healthData :=
  {| status := "ok";
     timestamp := Date_toISOString p;
     version := or_else (npm_package_version p) "unknown";
     uptime := process_uptime p;
     sessions :=
       {| sse := size (sseSessions s);
          streamable := size (streamableSessions s);
          total := (size (sseSessions s) + size (streamableSessions s))%nat |};
     memory := process_memoryUsage p;
     pid := process_pid p |}.

Definition ok_json (h : healthData) : response :=
  {| statusCode := 200;
     headers := [("Content-Type", "application/json")];
     body := Json h |}.

(** A GET that the router sends to the health reporter. *)
Definition is_health_get (req : IncomingMessage) (p : Platform) : Prop :=
  method req = "GET"
  /\ exists url, new_URL p = Some url /\ pathname url = "/health".

(** A GET that the router sends to the legacy adapter. *)
Definition is_legacy_get (req : IncomingMessage) (p : Platform) : Prop :=
  method req = "GET"
  /\ exists url, new_URL p = Some url
                 /\ route_by_path (pathname url) = ToLegacy.

(** A request that the router sends to the streamable adapter with the
    (non-empty) header value [id]. *)
Definition is_streamable_with (id : string) (req : IncomingMessage)
    (p : Platform) : Prop :=
  headers_mcp_session_id req = Some id /\ id <> ""
  /\ exists url, new_URL p = Some url
                 /\ route_by_path (pathname url) = ToStreamable.

(** ** Concrete requests for the further examples *)

Module Samples.

Definition health_req : IncomingMessage := Examples.request "GET" "/health" None.
Definition health_platform : Platform :=
  Examples.platform (Examples.parsed "/health" None) "unused".

Definition sse_req : IncomingMessage := Examples.request "GET" "/sse" None.
Definition sse_platform (uuid : string) : Platform :=
  Examples.platform (Examples.parsed "/sse" None) uuid.

Definition mcp_req (m : string) (header : option string) : IncomingMessage :=
  Examples.request m "/mcp" header.
Definition mcp_platform : Platform :=
  Examples.platform (Examples.parsed "/mcp" None) "unused".

End Samples.

(** ** Vocabulary for the life of a streamable transport *)

(** A POST without (non-empty) header that the router sends to the
    streamable adapter. *)
Definition is_streamable_post (req : IncomingMessage) (p : Platform) : Prop :=
  truthy (headers_mcp_session_id req) = None /\ method req = "POST"
  /\ exists url, new_URL p = Some url
                 /\ route_by_path (pathname url) = ToStreamable.

(** A POST on the legacy prefix whose [sessionId] parameter is [id]. *)
Definition is_legacy_post (id : string) (req : IncomingMessage) (p : Platform) : Prop :=
  method req = "POST"
  /\ exists url, new_URL p = Some url
                 /\ route_by_path (pathname url) = ToLegacy
                 /\ searchParams_get_sessionId url = Some id.

(** The handler of request [r] is over and its transport is in no entry of
    the streamable map. *)
Definition unregistered (r : nat) (s : server) : Prop :=
  suspended s !! r = None /\ (r < received s)%nat
  /\ forall id, streamableSessions s !! id <> Some r.

(** The answer of lines 164-165. *)
Definition not_found : response :=
  {| statusCode := 404; headers := []; body := Text "Session not found" |}.

(** ** The health-check patch

    The third document of [run-docker.sh] (lines 431-463):
    [addHealthcheckHandler] prepends a 'request' listener to a server, so on
    a server that also carries the router's listener it runs first, and the
    router's listener runs after it on the same request and response. *)

Record healthcheckBody := { hc_status : string; hc_timestamp : string }.

Record healthcheckAnswer := {
  hc_statusCode : Z;
  hc_headers : list (string * string);
  (** [JSON.stringify({ status, timestamp })] *)
  hc_body : healthcheckBody
}.

(** The prepended listener, lines 432-462. [now] is
    [new Date().toISOString()] at line 445. [None]: it returns without
    touching the response (also when the URL constructor throws: the
    exception is caught at line 459). [Some a]: it writes [a] and replaces
    [write], [end], [writeHead] and [setHeader] of the response by functions
    that do nothing (lines 452-455). *)
Definition healthcheck_listener (req : IncomingMessage) (p : Platform)
    (now : string) : option healthcheckAnswer :=
  if String.eqb (url req) "" then None
  else
    match new_URL p with
    | None => None
    | Some u =>
        if (String.eqb (pathname u) "/health"
            || String.eqb (pathname u) "/healthcheck")
           && String.eqb (method req) "GET"
        then Some {| hc_statusCode := 200;
                     hc_headers := [("Content-Type", "application/json")];
                     hc_body := {| hc_status := "ok"; hc_timestamp := now |} |}
        else None
    end.

Definition with_log (l : list effect) (s : server) : server :=
  {| sseSessions := sseSessions s; streamableSessions := streamableSessions s;
     transports := transports s; suspended := suspended s;
     closeListeners := closeListeners s; resClosed := resClosed s;
     received := received s; log := l |}.

(** [res.setHeader(..); res.end(..)] on the response of request [r]. *)
Definition writes_to (r : nat) (e : effect) : bool :=
  match e with
  | Respond r' _ => Nat.eqb r' r
  | _ => false
  end.

(** The router's listener on a response whose [setHeader] and [end] do
    nothing: it runs as usual, and what it writes to that response is lost. *)
Definition on_request_muted (req : IncomingMessage) (p : Platform) (s : server) : server :=
  let r := received s in
  let s' := on_request req p s in
  with_log (log s ++ List.filter (fun e => negb (writes_to r e))
                                 (drop (length (log s)) (log s'))) s'.

(** A server that carries both listeners. *)
Record patched := {
  router : server;
  (** the answers of the health-check listener, with the request answered *)
  healthchecks : list (nat * healthcheckAnswer)
}.

(** Node emits 'request': the health-check listener, then the router's. *)
Definition patched_request (req : IncomingMessage) (p : Platform) (now : string)
    (s : patched) : patched :=
  match healthcheck_listener req p now with
  | Some a =>
      {| router := on_request_muted req p (router s);
         healthchecks := healthchecks s ++ [(received (router s), a)] |}
  | None =>
      {| router := on_request req p (router s);
         healthchecks := healthchecks s |}
  end.

(** What the URL constructor gives for an empty request target:
    [new URL("http://localhost")] has path "/". *)
Definition empty_target_is_root (req : IncomingMessage) (p : Platform) : Prop :=
  url req = "" -> exists u, new_URL p = Some u /\ pathname u = "/".

(** ** The upload tool

    The first source document: the [handle] function of the
    [browser_file_upload] tool (lines 37-103). It is modelled as one call on
    a machine that holds the temporary files, the [_tempFilePaths] field of
    the tab and the calls made to the collaborators; what S3, the clock, the
    file system and the file chooser answer is given by a [World]. *)

Module Upload.

Definition bytes := list Byte.byte.

(** A modal state of the tab: its [type] and the object's identity. *)
Record ModalState := { modal_type : string; modal_ref : nat }.

(** What [s3Client.send] and the reading of the body give for one key: the
    call rejects; the response has no [Body]; the body yields the chunks and
    then ends ([complete]) or throws. *)
Inductive s3_answer :=
| SendRejects
| NoBody
| Body (chunks : list bytes) (complete : bool).

Record World := {
  (** the answer to the [i]-th [send] *)
  send : nat -> s3_answer;
  (** [Date.now()] in the [i]-th iteration, as the template prints it *)
  Date_now : nat -> string;
  (** the [i]-th [writeFileSync] throws *)
  write_fails : nat -> bool;
  (** [unlinkSync] of this path throws although the file is there *)
  unlink_fails : string -> bool;
  (** [tab.waitForCompletion] rejects *)
  setFiles_fails : bool;
  (** [join(tmpdir(), name)] *)
  join_tmpdir : string -> string
}.

Record Env := { AWS_S3_BUCKET : option string; AWS_REGION : option string }.

Inductive exn :=
(** [new Error(message)] thrown by the tool itself *)
| Error (message : string)
(** thrown by a collaborator in the [i]-th iteration, or by the chooser *)
| FromSend (i : nat)
| FromBody (i : nat)
| FromWrite (i : nat)
| FromSetFiles.

Inductive action :=
| SetIncludeSnapshot
| Send (bucket key region : string)
| WriteFileSync (path : string) (data : bytes)
| AddCode (localPaths s3Keys : list string)
| ClearModalState (m : ModalState)
| SetFiles (m : ModalState) (localPaths : list string)
| AddResult (count : nat)
| UnlinkSync (path : string)
| Warn (path : string).

Record Machine := {
  files : gmap string bytes;
  (** [tab._tempFilePaths]; [None] is [undefined] *)
  tempFilePaths : option (list string);
  actions : list action
}.

Definition act (a : action) (m : Machine) : Machine :=
  {| files := files m; tempFilePaths := tempFilePaths m;
     actions := actions m ++ [a] |}.

(** a [writeFileSync] that succeeds *)
Definition write (path : string) (data : bytes) (m : Machine) : Machine :=
  act (WriteFileSync path data)
      {| files := <[path := data]> (files m); tempFilePaths := tempFilePaths m;
         actions := actions m |}.

(** [s.split('/')] *)
Fixpoint split_slash (s : string) : list string :=
  match s with
  | EmptyString => [EmptyString]
  | String c rest =>
      if Ascii.eqb c (Ascii.ascii_of_nat 47) then EmptyString :: split_slash rest
      else match split_slash rest with
           | seg :: segs => String c seg :: segs
           | [] => [String c EmptyString]
           end
  end.

(** [s3Key.split('/').pop() || s3Key], line 73 *)
Definition fileName (s3Key : string) : string :=
  or_else (last (split_slash s3Key)) s3Key.

(** line 74 *)
Definition localPath_of (w : World) (i : nat) (s3Key : string) : string :=
  join_tmpdir w ("playwright-upload-" +:+ Date_now w i +:+ "-" +:+ fileName s3Key).

(** The loop of lines 55-77, from iteration [i] on: the exception that left
    it if any, [localPaths] as it stands, the machine. *)
Fixpoint download (w : World) (bucketName region : string) (i : nat)
    (s3Keys localPaths : list string) (m : Machine)
    : option exn * list string * Machine :=
  match s3Keys with
  | [] => (None, localPaths, m)
  | s3Key :: rest =>
      let m := act (Send bucketName s3Key region) m in
      match send w i with
      | SendRejects => (Some (FromSend i), localPaths, m)
      | NoBody =>
          (Some (Error ("Failed to get file body for " +:+ s3Key)), localPaths, m)
      | Body chunks complete =>
          if negb complete then (Some (FromBody i), localPaths, m)
          else
            let buffer := concat chunks in
            let localPath := localPath_of w i s3Key in
            if write_fails w i then (Some (FromWrite i), localPaths, m)
            else download w bucketName region (S i) rest
                          (localPaths ++ [localPath]) (write localPath buffer m)
      end
  end.

(** One turn of the loop of lines 94-100: [unlinkSync] throws when the file
    is not there; the exception is caught and reported with [console.warn]. *)
Definition unlink (w : World) (localPath : string) (m : Machine) : Machine :=
  match files m !! localPath with
  | Some _ =>
      if unlink_fails w localPath then act (Warn localPath) m
      else act (UnlinkSync localPath)
               {| files := delete localPath (files m);
                  tempFilePaths := tempFilePaths m; actions := actions m |}
  | None => act (Warn localPath) m
  end.

Definition cleanup (w : World) (localPaths : list string) (m : Machine) : Machine :=
  fold_left (fun m localPath => unlink w localPath m) localPaths m.

Inductive outcome := Returns | Throws (e : exn).

(** [handle], lines 37-103. *)
Definition handle (w : World) (env : Env) (modalStates : list ModalState)
    (s3Keys : list string) (m : Machine) : outcome * Machine :=
  let m := act SetIncludeSnapshot m in
  match List.find (fun state => String.eqb (modal_type state) "fileChooser")
                  modalStates with
  | None => (Throws (Error "No file chooser visible"), m)
  | Some modalState =>
      match truthy (AWS_S3_BUCKET env), truthy (AWS_REGION env) with
      | Some bucketName, Some region =>
          match download w bucketName region 0 s3Keys [] m with
          | (Some error, localPaths, m) => (Throws error, cleanup w localPaths m)
          | (None, localPaths, m) =>
              let m := act (AddCode localPaths s3Keys) m in
              let m := act (ClearModalState modalState) m in
              let m := act (SetFiles modalState localPaths) m in
              if setFiles_fails w then (Throws FromSetFiles, cleanup w localPaths m)
              else
                let m := act (AddResult (length localPaths)) m in
                (Returns,
                 {| files := files m;
                    tempFilePaths :=
                      Some (match tempFilePaths m with
                            | Some paths => paths
                            | None => []
                            end ++ localPaths);
                    actions := actions m |})
          end
      | _, _ =>
          (Throws (Error "AWS_S3_BUCKET and AWS_REGION environment variables must be set"),
           m)
      end
  end.

(** The paths the loop pushes when no iteration fails, from iteration [i]. *)
Fixpoint paths_from (w : World) (i : nat) (s3Keys : list string) : list string :=
  match s3Keys with
  | [] => []
  | s3Key :: rest => localPath_of w i s3Key :: paths_from w (S i) rest
  end.

(** Every download succeeds: the body is read to its end and the file is
    written. *)
Definition all_downloads_succeed (w : World) (i : nat) (s3Keys : list string) : Prop :=
  forall j, (j < length s3Keys)%nat ->
    write_fails w (i + j) = false
    /\ exists chunks, send w (i + j) = Body chunks true.

(** The key has no "/" in it. *)
Definition slash_free (s : string) : Prop :=
  ~ exists a b, s = a +:+ "/" +:+ b.

(** The action is the removal, or the attempt at it, of a file. *)
Definition removes (a : action) : bool :=
  match a with
  | UnlinkSync _ | Warn _ => true
  | _ => false
  end.

End Upload.

(** Sample runs of the upload tool: a tab that shows a file chooser, two
    keys, and a bucket that answers every request, or only the first. *)
Module UploadSamples.

Definition chooser : Upload.ModalState :=
  {| Upload.modal_type := "fileChooser"; Upload.modal_ref := 7 |}.

Definition modalStates : list Upload.ModalState :=
  [{| Upload.modal_type := "dialog"; Upload.modal_ref := 3 |}; chooser].

Definition env : Upload.Env :=
  {| Upload.AWS_S3_BUCKET := Some "clinic"; Upload.AWS_REGION := Some "eu-west-1" |}.

Definition s3Keys : list string := ["docs/a.txt"; "docs/b.txt"].

Definition content : list Upload.bytes := [[Byte.x68; Byte.x69]].

Definition world (send : nat -> Upload.s3_answer) : Upload.World :=
  {| Upload.send := send;
     Upload.Date_now := fun i => "170000000000" +:+ (if Nat.eqb i 0 then "0" else "1");
     Upload.write_fails := fun _ => false;
     Upload.unlink_fails := fun _ => false;
     Upload.setFiles_fails := false;
     Upload.join_tmpdir := fun name => "/tmp/" +:+ name |}.

Definition generous : Upload.World := world (fun _ => Upload.Body content true).


Definition fresh : Upload.Machine :=
  {| Upload.files := ∅; Upload.tempFilePaths := None; Upload.actions := [] |}.


Definition after_success : Upload.Machine :=
  snd (Upload.handle generous env modalStates s3Keys fresh).

End UploadSamples.

(** * The Docker Compose runner, [run-docker.sh]

    The script runs under [set -e]: a simple command that returns a status
    other than 0 ends the script with that status, unless the command is
    the condition of an [if] or an operand of [&&] or [!]. The commands it
    runs are outside the script: the world gives the status of each, and
    the trace records what was run and what was printed. [echo] is taken to
    succeed. *)
Module Runner.

(** The four [print_*] functions, lines 16-30, by the tag they print. *)
Inductive level := INFO | SUCCESS | WARNING | ERROR.

Inductive command :=
(** [command -v name &> /dev/null] *)
| command_v (name : string)
(** [docker compose version &> /dev/null] *)
| docker_compose_version
(** [mkdir -p output] *)
| mkdir_p_output
(** [$COMPOSE_CMD args] *)
| compose (COMPOSE_CMD : string) (args : list string)
(** [sleep 2] *)
| sleep_2
(** [docker ps --format ... | grep -q "playwright-mcp-server"] *)
| docker_ps_grep
(** [curl -s -f http://localhost:8931/mcp > /dev/null 2>&1] *)
| curl_mcp
(** [read -p "Are you sure? (y/N): " -n 1 -r] *)
| read_reply.

Inductive entry :=
| Ran (c : command) (status : nat)
| Print (l : level) (message : string)
| Echo (line : string).

(** The status a command returns and what [read] stores in [REPLY], when
    the trace has [n] entries. *)
Record World := {
  status : nat -> command -> nat;
  REPLY : nat -> string
}.

Inductive result (A : Type) :=
| Continue (a : A)
| Exit (code : nat).
Arguments Continue {A} a.
Arguments Exit {A} code.

Definition sh (A : Type) : Type := list entry -> result A * list entry.

#[global] Instance sh_ret : MRet sh := fun A a t => (Continue a, t).

#[global] Instance sh_bind : MBind sh := fun A B f m t =>
  match m t with
  | (Continue a, t) => f a t
  | (Exit code, t) => (Exit code, t)
  end.

Definition exit {A : Type} (code : nat) : sh A := fun t => (Exit code, t).

Definition tell (e : entry) : sh unit := fun t => (Continue tt, t ++ [e]).

Section Script.

Variable w : World.
(** [$0] *)
Variable script : string.

(** A command whose status is only looked at: the condition of an [if]. *)
Definition invoke (c : command) : sh nat := fun t =>
  let st := status w (length t) c in (Continue st, t ++ [Ran c st]).

(** A simple command under [set -e]; what it returns is [$?]. *)
Definition simple (c : command) : sh nat :=
  st ← invoke c;
  if Nat.eqb st 0 then mret st else exit st.

Definition print_status (msg : string) : sh unit := tell (Print INFO msg).
Definition print_success (msg : string) : sh unit := tell (Print SUCCESS msg).
Definition print_warning (msg : string) : sh unit := tell (Print WARNING msg).
Definition print_error (msg : string) : sh unit := tell (Print ERROR msg).
Definition echo (line : string) : sh unit := tell (Echo line).

(** lines 33-43 *)
Definition check_dependencies : sh unit :=
  st ← invoke (command_v "docker");
  (if negb (Nat.eqb st 0) then
     print_error "Docker is not installed or not in PATH";; exit 1
   else mret tt);;
  st ← invoke (command_v "docker-compose");
  if negb (Nat.eqb st 0) then
    st ← invoke docker_compose_version;
    if negb (Nat.eqb st 0) then
      print_error "Docker Compose is not installed or not in PATH";; exit 1
    else mret tt
  else mret tt.

(** lines 46-66 *)
Definition show_help : sh unit :=
  echo "Playwright MCP Docker Compose Runner";;
  echo "";;
  echo ("Usage: " +:+ script +:+ " [COMMAND]");;
  echo "";;
  echo "Commands:";;
  echo "  start, up      Start the Playwright MCP server";;
  echo "  stop, down     Stop the Playwright MCP server";;
  echo "  restart        Restart the Playwright MCP server";;
  echo "  logs           Show logs from the server";;
  echo "  status         Show status of the server";;
  echo "  build          Build the Docker image";;
  echo "  health         Run health check";;
  echo "  clean          Stop and remove containers, networks, and volumes";;
  echo "  help           Show this help message";;
  echo "";;
  echo "Examples:";;
  echo ("  " +:+ script +:+ " start       # Start the server in background");;
  echo ("  " +:+ script +:+ " logs        # View server logs");;
  echo ("  " +:+ script +:+ " health      # Check if server is healthy").

(** The choice every function makes, as in lines 76-80. *)
Definition set_COMPOSE_CMD : sh string :=
  st ← invoke docker_compose_version;
  mret (if Nat.eqb st 0 then "docker compose" else "docker-compose").

(** lines 69-93 *)
Definition start_service : sh unit :=
  print_status "Starting Playwright MCP server...";;
  simple mkdir_p_output;;
  COMPOSE_CMD ← set_COMPOSE_CMD;
  st ← simple (compose COMPOSE_CMD ["up"; "-d"]);
  if Nat.eqb st 0 then
    print_success "Playwright MCP server started successfully!";;
    print_status "Server is available at: http://localhost:8931/mcp";;
    print_status ("Use '" +:+ script +:+ " logs' to view logs");;
    print_status ("Use '" +:+ script +:+ " status' to check status")
  else
    print_error "Failed to start Playwright MCP server";; exit 1.

(** lines 96-113 *)
Definition stop_service : sh unit :=
  print_status "Stopping Playwright MCP server...";;
  COMPOSE_CMD ← set_COMPOSE_CMD;
  st ← simple (compose COMPOSE_CMD ["down"]);
  if Nat.eqb st 0 then
    print_success "Playwright MCP server stopped successfully!"
  else
    print_error "Failed to stop Playwright MCP server";; exit 1.

(** lines 116-125 *)
Definition show_logs : sh unit :=
  COMPOSE_CMD ← set_COMPOSE_CMD;
  print_status "Showing Playwright MCP server logs (Press Ctrl+C to exit)...";;
  simple (compose COMPOSE_CMD ["logs"; "-f"; "playwright-mcp"]);;
  mret tt.

(** lines 128-151 *)
Definition show_status : sh unit :=
  COMPOSE_CMD ← set_COMPOSE_CMD;
  print_status "Playwright MCP server status:";;
  simple (compose COMPOSE_CMD ["ps"]);;
  st ← invoke docker_ps_grep;
  if Nat.eqb st 0 then
    print_success "Server is running";;
    echo "";;
    print_status "Testing server endpoint...";;
    st ← invoke curl_mcp;
    if Nat.eqb st 0 then print_success "Server endpoint is responding"
    else print_warning
           "Server endpoint is not responding yet (may still be starting up)"
  else print_warning "Server is not running".

(** lines 154-163 *)
Definition run_health_check : sh unit :=
  COMPOSE_CMD ← set_COMPOSE_CMD;
  print_status "Running health check...";;
  simple (compose COMPOSE_CMD ["--profile"; "health-check"; "up"; "health-check"]);;
  mret tt.

(** lines 166-182 *)
Definition build_image : sh unit :=
  COMPOSE_CMD ← set_COMPOSE_CMD;
  print_status "Building Playwright MCP Docker image...";;
  st ← simple (compose COMPOSE_CMD ["build"]);
  if Nat.eqb st 0 then print_success "Docker image built successfully!"
  else print_error "Failed to build Docker image";; exit 1.

(** [[[ $REPLY =~ ^[Yy]$ ]]] *)
Definition says_yes (reply : string) : bool :=
  String.eqb reply "Y" || String.eqb reply "y".

(** [read -p ... -n 1 -r], a simple command: what it stored in [REPLY]. *)
Definition read : sh string := fun t =>
  match simple read_reply t with
  | (Continue _, t') => (Continue (REPLY w (length t)), t')
  | (Exit code, t') => (Exit code, t')
  end.

(** lines 185-202 *)
Definition clean_up : sh unit :=
  COMPOSE_CMD ← set_COMPOSE_CMD;
  print_warning "This will stop and remove all containers, networks, and volumes";;
  reply ← read;
  echo "";;
  if says_yes reply then
    print_status "Cleaning up...";;
    simple (compose COMPOSE_CMD ["down"; "-v"; "--remove-orphans"]);;
    print_success "Cleanup completed!"
  else print_status "Cleanup cancelled".

(** [case word in a|b)] *)
Definition matches (word : string) (patterns : list string) : bool :=
  existsb (String.eqb word) patterns.

(** lines 205-243; [args] are the arguments of the script, and running off
    the end of the script gives status 0, that of the last [echo]. *)
Definition main (args : list string) : sh unit :=
  check_dependencies;;
  let word := match head args with
              | Some a => if String.eqb a "" then "help" else a
              | None => "help"
              end in
  if matches word ["start"; "up"] then start_service
  else if matches word ["stop"; "down"] then stop_service
  else if matches word ["restart"] then
    stop_service;; simple sleep_2;; start_service
  else if matches word ["logs"] then show_logs
  else if matches word ["status"] then show_status
  else if matches word ["health"] then run_health_check
  else if matches word ["build"] then build_image
  else if matches word ["clean"] then clean_up
  else if matches word ["help"; "--help"; "-h"] then show_help
  else
    print_error ("Unknown command: " +:+ default "" (head args));;
    echo "";;
    show_help;;
    exit 1.

End Script.

(** The exit status of the script and its trace. *)
Definition exit_status (r : result unit * list entry) : nat :=
  match fst r with
  | Continue _ => 0
  | Exit code => code
  end.

Definition trace (r : result unit * list entry) : list entry := snd r.

Definition script_run (w : World) (script : string) (args : list string) :=
  main w script args [].

(** What holds when [m] has run from the trace [t]: [Q] if it ran to its
    end, [E] if it left the script. *)
Definition wp {A : Type} (m : sh A) (Q : A -> list entry -> Prop)
    (E : nat -> list entry -> Prop) (t : list entry) : Prop :=
  match m t with
  | (Continue a, t') => Q a t'
  | (Exit code, t') => E code t'
  end.

End Runner.

(** Sample worlds for the runner: every command succeeds and the user says
    yes; [up] fails with status 3; Docker is not installed. *)
Module RunnerSamples.

Definition script : string := "./run-docker.sh".

Definition all_well : Runner.World :=
  {| Runner.status := fun _ _ => 0%nat; Runner.REPLY := fun _ => "y" |}.

Definition up_fails : Runner.World :=
  {| Runner.status := fun _ c =>
       match c with
       | Runner.compose _ ("up" :: _) => 3%nat
       | _ => 0%nat
       end;
     Runner.REPLY := fun _ => "" |}.

Definition no_docker : Runner.World :=
  {| Runner.status := fun _ c =>
       match c with
       | Runner.command_v "docker" => 1%nat
       | _ => 0%nat
       end;
     Runner.REPLY := fun _ => "" |}.

End RunnerSamples.

(** * Properties *)

(** ** Basic facts *)

Lemma truthy_Some v id : truthy v = Some id -> v = Some id /\ id <> "".
Proof.
  destruct v as [x|]; simpl; [|discriminate].
  destruct (String.eqb_spec x ""); [discriminate|].
  intros [= ->]. auto.
Qed.

Lemma truthy_None v : truthy v = None -> v = None \/ v = Some "".
Proof.
  destruct v as [x|]; simpl; [|auto].
  destruct (String.eqb_spec x ""); [subst; auto|discriminate].
Qed.

Lemma truthy_present id : id <> "" -> truthy (Some id) = Some id.
Proof. intros H. simpl. destruct (String.eqb_spec id ""); congruence. Qed.

Lemma prefix_starts (a b : string) :
  String.prefix a b = true <-> exists rest, b = a +:+ rest.
Proof.
  revert b. induction a as [|c a IH]; intros b.
  - destruct b; split; cbn; eauto.
  - destruct b as [|d b].
    + split; [discriminate|]. intros [rest H]. discriminate.
    + change (String.prefix (String c a) (String d b))
        with (if Ascii.ascii_dec c d then String.prefix a b else false).
      destruct (Ascii.ascii_dec c d) as [->|Hne].
      * specialize (IH b). split.
        -- intros H. apply IH in H as [rest ->]. now exists rest.
        -- intros [rest H]. injection H as ->. apply IH. now exists rest.
      * split; [discriminate|]. intros [rest H].
        injection H as H1 H2. congruence.
Qed.

(** ** C1: routing *)

Lemma route_health path : route_by_path path = ToHealth <-> path = "/health".
Proof.
  unfold route_by_path. destruct (String.eqb_spec path "/health") as [->|Hne].
  - tauto.
  - destruct (String.prefix "/sse" path); split; congruence.
Qed.

Lemma route_legacy path :
  route_by_path path = ToLegacy <-> exists rest, path = "/sse" +:+ rest.
Proof.
  unfold route_by_path. destruct (String.eqb_spec path "/health") as [->|Hne].
  - split; [discriminate|]. intros [rest H]. discriminate.
  - rewrite <- prefix_starts.
    destruct (String.prefix "/sse" path); split; congruence.
Qed.

Lemma route_streamable path :
  route_by_path path = ToStreamable <->
  path <> "/health" /\ ~ exists rest, path = "/sse" +:+ rest.
Proof.
  rewrite <- route_health, <- route_legacy.
  destruct (route_by_path path); split; intros H;
    try discriminate; try (split; discriminate); try reflexivity;
    destruct H as [H1 H2]; congruence.
Qed.

Lemma router_dispatch (req : IncomingMessage) (p : Platform) (url : URL) (s : server) :
  new_URL p = Some url ->
  on_request req p s =
    dispatch (route_by_path (pathname url)) (received s) req url p
             (with_received (S (received s)) s).
Proof.
  intros Hurl. unfold on_request, route_by_path. rewrite Hurl.
  destruct (String.eqb (pathname url) "/health"); [reflexivity|].
  destruct (String.prefix "/sse" (pathname url)); reflexivity.
Qed.

(** C1. When the URL of a request parses, the listener runs exactly the
    handler that the routing rule selects from the path of the URL, whatever
    the method, the headers and the state of the server are; the rule sends
    a path equal to "/health" to the health reporter, a path that starts with
    "/sse" to the legacy adapter and every other path, "/mcp" among them, to
    the streamable adapter. *)
Theorem router_dispatches_on_path (req : IncomingMessage) (p : Platform)
    (url : URL) (s : server) :
  new_URL p = Some url ->
  on_request req p s =
    dispatch (route_by_path (pathname url)) (received s) req url p
             (with_received (S (received s)) s)
  /\ (route_by_path (pathname url) = ToHealth <-> pathname url = "/health")
  /\ (route_by_path (pathname url) = ToLegacy <->
        exists rest, pathname url = "/sse" +:+ rest)
  /\ (route_by_path (pathname url) = ToStreamable <->
        pathname url <> "/health" /\ ~ exists rest, pathname url = "/sse" +:+ rest)
  /\ route_by_path "/mcp" = ToStreamable.
Proof.
  intros Hurl. split; [|split; [|split; [|split]]].
  - now apply router_dispatch.
  - apply route_health.
  - apply route_legacy.
  - apply route_streamable.
  - reflexivity.
Qed.

Lemma router_dispatches_on_path_witness :
  new_URL (Examples.platform (Examples.parsed "/sse/x" None) "u") =
    Some {| pathname := "/sse/x"; searchParams_get_sessionId := None |}
  /\ on_request (Examples.request "DELETE" "/sse/x" (Some "S9"))
                (Examples.platform (Examples.parsed "/sse/x" None) "u")
                Examples.two_legacy_one_streamable =
     handleSSE 3 (Examples.request "DELETE" "/sse/x" (Some "S9"))
               {| pathname := "/sse/x"; searchParams_get_sessionId := None |}
               (Examples.platform (Examples.parsed "/sse/x" None) "u")
               (with_received 4 Examples.two_legacy_one_streamable).
Proof.
  split; [reflexivity|].
  exact (proj1 (router_dispatches_on_path
                  (Examples.request "DELETE" "/sse/x" (Some "S9"))
                  (Examples.platform (Examples.parsed "/sse/x" None) "u")
                  {| pathname := "/sse/x"; searchParams_get_sessionId := None |}
                  Examples.two_legacy_one_streamable eq_refl)).
Defined.

(** ** C8: the health reporter *)

Lemma or_else_unknown (v : option string) :
  (v = None -> or_else v "unknown" = "unknown")
  /\ (v = Some "" -> or_else v "unknown" = "unknown")
  /\ (forall x, v = Some x -> x <> "" -> or_else v "unknown" = x).
Proof.
  unfold or_else. repeat split.
  - now intros ->.
  - now intros ->.
  - intros x -> Hx. now rewrite truthy_present.
Qed.

(** C8. A GET to the health reporter is answered with status 200 and the
    JSON of a record holding the status token "ok", the timestamp, the
    package version or "unknown" when the variable is unset (or empty), the
    uptime, the memory snapshot, and the sizes of the legacy and of the
    streamable map with their sum as total; any other method is answered
    with 405 and the header Allow: GET; in both cases the two maps are left
    as they were; with two legacy and one streamable session open the counts
    read 2, 1 and 3. *)
Theorem health_report (r : nat) (req : IncomingMessage) (p : Platform) (s : server) :
  (method req = "GET" ->
     exists h,
       handleHealth r req p s =
         emit (Respond r {| statusCode := 200;
                            headers := [("Content-Type", "application/json")];
                            body := Json h |}) s
       /\ status h = "ok"
       /\ timestamp h = Date_toISOString p
       /\ (npm_package_version p = None -> version h = "unknown")
       /\ (forall v, npm_package_version p = Some v -> v <> "" -> version h = v)
       /\ uptime h = process_uptime p
       /\ memory h = process_memoryUsage p
       /\ sse (sessions h) = size (sseSessions s)
       /\ streamable (sessions h) = size (streamableSessions s)
       /\ total (sessions h) = (sse (sessions h) + streamable (sessions h))%nat
       /\ (s = Examples.two_legacy_one_streamable ->
             sessions h = {| sse := 2; streamable := 1; total := 3 |}))
  /\ (method req <> "GET" ->
        handleHealth r req p s =
          emit (Respond r {| statusCode := 405;
                             headers := [("Allow", "GET")];
                             body := Text "Method not allowed" |}) s)
  /\ sseSessions (handleHealth r req p s) = sseSessions s
  /\ streamableSessions (handleHealth r req p s) = streamableSessions s.
Proof.
  unfold handleHealth.
  destruct (String.eqb_spec (method req) "GET") as [Hm|Hm]; simpl.
  - split; [|split; [congruence|split; reflexivity]].
    intros _. eexists. split; [reflexivity|]. simpl.
    destruct (or_else_unknown (npm_package_version p)) as (H1 & _ & H3).
    repeat split; auto.
    intros ->. vm_compute. reflexivity.
  - split; [congruence|]. split; [reflexivity|]. split; reflexivity.
Qed.

Lemma health_report_witness :
  method (Examples.request "GET" "/health" None) = "GET"
  /\ exists h,
       log (handleHealth 3 (Examples.request "GET" "/health" None)
              (Examples.platform (Examples.parsed "/health" None) "u")
              Examples.two_legacy_one_streamable) =
         log Examples.two_legacy_one_streamable ++
         [Respond 3 {| statusCode := 200;
                       headers := [("Content-Type", "application/json")];
                       body := Json h |}]
       /\ sessions h = {| sse := 2; streamable := 1; total := 3 |}.
Proof.
  split; [reflexivity|].
  destruct (proj1 (health_report 3 (Examples.request "GET" "/health" None)
                     (Examples.platform (Examples.parsed "/health" None) "u")
                     Examples.two_legacy_one_streamable) eq_refl)
    as (h & Heq & _ & _ & _ & _ & _ & _ & _ & _ & _ & Hd).
  exists h. split; [now rewrite Heq|]. now apply Hd.
Defined.

(** ** C4: validation on the legacy prefix *)



(** ** C10: the 400 branch of the streamable adapter *)



(** ** C2: a session made from the header *)

Lemma streamable_request (req : IncomingMessage) (p : Platform) (url : URL) (s : server) :
  new_URL p = Some url -> route_by_path (pathname url) = ToStreamable ->
  step (Request req p) s =
    handleStreamable (received s) req (with_received (S (received s)) s).
Proof.
  intros Hu Hr. simpl.
  rewrite (router_dispatch req p url s Hu), Hr. reflexivity.
Qed.

Lemma handleStreamable_eager (r : nat) (req : IncomingMessage) (id : string) (s : server) :
  headers_mcp_session_id req = Some id -> id <> "" ->
  streamableSessions s !! id = None ->
  handleStreamable r req s = eager_suspended r id s.
Proof.
  intros Hh Hid Hnone. unfold handleStreamable.
  now rewrite Hh, (truthy_present _ Hid), Hnone.
Qed.

Lemma streamable_passthrough (id : string) (t : nat) (e : event) (s : server) :
  id <> "" -> carries_session id e -> streamableSessions s !! id = Some t ->
  step e s = emit (HandleRequest t (received s)) (with_received (S (received s)) s).
Proof.
  intros Hid He Ht. destruct e as [req p| | | | |]; try contradiction.
  destruct He as (Hh & url & Hu & Hr).
  rewrite (streamable_request req p url s Hu Hr).
  unfold handleStreamable. rewrite Hh, (truthy_present _ Hid). simpl.
  now rewrite Ht.
Qed.

Lemma streamable_passthrough_run (id : string) (t : nat) (evs : list event) :
  id <> "" -> Forall (carries_session id) evs ->
  forall s, streamableSessions s !! id = Some t ->
    streamableSessions (run evs s) = streamableSessions s
    /\ sseSessions (run evs s) = sseSessions s
    /\ transports (run evs s) = transports s
    /\ log (run evs s) = log s ++ forwarded t (received s) (length evs).
Proof.
  intros Hid Hall. induction Hall as [|e evs He _ IH]; intros s Ht.
  - simpl. unfold forwarded. simpl. now rewrite app_nil_r.
  - simpl. rewrite (streamable_passthrough id t e s Hid He Ht).
    destruct (IH (emit (HandleRequest t (received s))
                       (with_received (S (received s)) s)) Ht)
      as (H1 & H2 & H3 & H4).
    rewrite H1, H2, H3, H4. simpl. unfold forwarded. simpl.
    now rewrite <- app_assoc.
Qed.

(** C2, as stated, fails: the session is not stored synchronously. Two
    requests carry the same unknown id "S3"; the second arrives while the
    connect started for the first is pending, finds the map without the
    entry and makes a transport of its own. Each request is then handled by
    its own transport (0 and 1): the second request is never handed to the
    transport of the first, two connects are made, and the entry of the
    first is overwritten by the second. *)
Lemma same_header_requests_make_two_sessions :
  let s := run [Examples.mcp "POST" (Some "S3"); Examples.mcp "POST" (Some "S3");
                ConnectSettled 0 true; ConnectSettled 1 true] startHttpTransport in
  streamableSessions startHttpTransport !! "S3" = None
  /\ streamableSessions (run [Examples.mcp "POST" (Some "S3")] startHttpTransport)
       !! "S3" = None
  /\ log s = [TestDebug "create http session: S3"; Connect (Streamable 0) true;
              TestDebug "create http session: S3"; Connect (Streamable 1) true;
              ConnectResolved (Streamable 0); HandleRequest 0 0;
              ConnectResolved (Streamable 1); HandleRequest 1 1]
  /\ ~ In (HandleRequest 0 1) (log s)
  /\ streamableSessions s !! "S3" = Some 1%nat.
Proof.
  vm_compute. repeat split. intuition discriminate.
Qed.

(** C2, amended. A request to the streamable adapter whose [mcp-session-id]
    value [id] is not in the streamable map makes, while that
    request is handled, a transport whose session id is [id] itself, marked
    initialized, and starts the initialization callback (the stateless
    connect) on it; the map is untouched while that connect is pending; when
    the connect resolves the transport is stored under [id] and the request
    is forwarded to it; every request carrying the same value that finds the
    entry is passed to that same transport and changes neither map, so any
    sequence of such requests after the connect goes to it. *)
Theorem header_session_created_and_reused (req : IncomingMessage) (p : Platform)
    (url : URL) (id : string) (s : server) :
  new_URL p = Some url -> route_by_path (pathname url) = ToStreamable ->
  headers_mcp_session_id req = Some id -> id <> "" ->
  streamableSessions s !! id = None ->
  let r := received s in
  let s1 := step (Request req p) s in
  let s2 := step (ConnectSettled r true) s1 in
  transports s1 !! r =
    Some {| sessionIdGenerator := GenHeader id; sessionId := Some id;
            initialized := true |}
  /\ log s1 = log s ++ [TestDebug ("create http session: " +:+ id);
                        Connect (Streamable r) true]
  /\ streamableSessions s1 = streamableSessions s
  /\ streamableSessions s2 = <[id := r]> (streamableSessions s)
  /\ transports s2 = transports s1
  /\ log s2 = log s1 ++ [ConnectResolved (Streamable r); HandleRequest r r]
  /\ (forall s' e, streamableSessions s' !! id = Some r -> carries_session id e ->
        step e s' = emit (HandleRequest r (received s'))
                         (with_received (S (received s')) s'))
  /\ (forall evs, Forall (carries_session id) evs ->
        streamableSessions (run evs s2) = streamableSessions s2
        /\ transports (run evs s2) = transports s2
        /\ log (run evs s2) = log s2 ++ forwarded r (received s2) (length evs)).
Proof.
  intros Hu Hr Hh Hid Hnone r s1 s2.
  assert (Hs1 : s1 = eager_suspended r id (with_received (S r) s)).
  { subst s1 r. rewrite (streamable_request req p url s Hu Hr).
    now apply handleStreamable_eager. }
  assert (Hs2 : s2 = handleStreamable_eager_connected r id true s1).
  { subst s2. rewrite Hs1. simpl. now rewrite lookup_insert_eq. }
  assert (Hl2 : streamableSessions s2 !! id = Some r).
  { rewrite Hs2. simpl. now rewrite lookup_insert_eq. }
  clearbody s1 s2.
  split; [|split; [|split; [|split; [|split; [|split; [|split]]]]]].
  - rewrite Hs1. simpl. now rewrite lookup_insert_eq.
  - rewrite Hs1. simpl. now rewrite <- app_assoc.
  - now rewrite Hs1.
  - now rewrite Hs2, Hs1.
  - now rewrite Hs2.
  - rewrite Hs2. simpl. now rewrite <- app_assoc.
  - intros s' e Hs' He. now apply (streamable_passthrough id r e s' Hid He Hs').
  - intros evs Hevs.
    destruct (streamable_passthrough_run id r evs Hid Hevs _ Hl2)
      as (H1 & _ & H3 & H4).
    auto.
Qed.

Lemma header_session_created_and_reused_witness :
  headers_mcp_session_id (Examples.request "POST" "/mcp" (Some "S3")) = Some "S3"
  /\ "S3" <> ""
  /\ streamableSessions startHttpTransport !! "S3" = None
  /\ streamableSessions
       (step (ConnectSettled (received startHttpTransport) true)
          (step (Request (Examples.request "POST" "/mcp" (Some "S3"))
                   (Examples.platform (Examples.parsed "/mcp" None) "unused"))
                startHttpTransport)) =
     <["S3" := received startHttpTransport]> (streamableSessions startHttpTransport).
Proof.
  assert (Hnone : streamableSessions startHttpTransport !! "S3" = None)
    by (vm_compute; reflexivity).
  assert (Hid : "S3" <> "") by discriminate.
  split; [reflexivity|]. split; [exact Hid|]. split; [exact Hnone|].
  exact (proj1 (proj2 (proj2 (proj2
           (header_session_created_and_reused
              (Examples.request "POST" "/mcp" (Some "S3"))
              (Examples.platform (Examples.parsed "/mcp" None) "unused")
              {| pathname := "/mcp"; searchParams_get_sessionId := None |}
              "S3" startHttpTransport eq_refl eq_refl eq_refl Hid Hnone))))).
Defined.

(** ** Invariants: how each operation on the state keeps them *)

Lemma sound_start : sound startHttpTransport.
Proof.
  repeat split; intros ? *; simpl; rewrite ?lookup_empty;
    try discriminate; intros [? H]; discriminate.
Qed.

Lemma continuation_sound_mono (s s' : server) (r : nat) (k : continuation) :
  (forall tr, transports s !! r = Some tr -> transports s' !! r = Some tr) ->
  (forall e, In e (log s) -> In e (log s')) ->
  continuation_sound s r k -> continuation_sound s' r k.
Proof.
  intros Ht Hl. destruct k; simpl; auto.
  - intros (tr & H1 & H2 & H3 & H4). exists tr. auto.
  - intros (tr & H1 & H2). exists tr. auto.
  - intros (tr & H1 & H2 & H3 & H4). exists tr. auto.
Qed.

Lemma sound_emit (e : effect) (s : server) : sound s -> sound (emit e s).
Proof.
  intros (Hr & Hs & Hn). split; [|split].
  - intros id t H. destruct (Hr id t H) as (tr & H1 & H2 & H3 & H4 & H5).
    exists tr. simpl. rewrite !in_app_iff. auto 10.
  - intros r k H. apply (continuation_sound_mono s); [auto| |now apply Hs].
    simpl. intros x Hx. rewrite in_app_iff. auto.
  - exact Hn.
Qed.

Lemma sound_received (s : server) : sound s -> sound (with_received (S (received s)) s).
Proof.
  intros (Hr & Hs & Hn1 & Hn2 & Hn3). split; [exact Hr|]. split; [exact Hs|].
  repeat split; simpl; intros x Hx;
    [apply Hn1 in Hx | apply Hn2 in Hx | apply Hn3 in Hx]; lia.
Qed.

Lemma sound_sseSessions m (s : server) : sound s -> sound (with_sseSessions m s).
Proof. intros H. exact H. Qed.

Lemma sound_resClosed c (s : server) : sound s -> sound (with_resClosed c s).
Proof. intros H. exact H. Qed.

Lemma sound_finish (r : nat) (s : server) : sound s -> sound (finish r s).
Proof.
  intros (Hr & Hs & Hn1 & Hn2 & Hn3). split; [exact Hr|]. split; [|split; [|split]].
  - intros r' k. unfold finish. simpl. intros H.
    apply lookup_delete_Some in H as [_ H]. now apply Hs.
  - exact Hn1.
  - intros r'. unfold finish. simpl. intros [k H].
    apply lookup_delete_Some in H as [_ H]. apply Hn2. eauto.
  - exact Hn3.
Qed.

Lemma sound_suspend (r : nat) (k : continuation) (s : server) :
  (r < received s)%nat -> continuation_sound s r k ->
  sound s -> sound (suspend r k s).
Proof.
  intros Hlt Hk (Hr & Hs & Hn1 & Hn2 & Hn3).
  split; [exact Hr|]. split; [|split; [|split]].
  - intros r' k'. unfold suspend. simpl. intros H.
    apply lookup_insert_Some in H as [[<- <-]|[_ H]]; [exact Hk|now apply Hs].
  - exact Hn1.
  - intros r'. unfold suspend. simpl. intros [k' H].
    apply lookup_insert_Some in H as [[<- <-]|[_ H]]; [exact Hlt|]. apply Hn2. eauto.
  - exact Hn3.
Qed.

Lemma sound_listen (r : nat) (t : SSEServerTransport) (s : server) :
  (r < received s)%nat ->
  sound s -> sound (with_closeListeners (<[r := t]> (closeListeners s)) s).
Proof.
  intros Hlt (Hr & Hs & Hn1 & Hn2 & Hn3).
  split; [exact Hr|]. split; [exact Hs|]. split; [exact Hn1|]. split; [exact Hn2|].
  simpl. intros r' [t' H].
  apply lookup_insert_Some in H as [[<- <-]|[_ H]]; [exact Hlt|]. apply Hn3. eauto.
Qed.

(** Allocating the transport of the request being handled: its reference is
    new, so nothing registered or suspended refers to it. *)
Lemma sound_allocate (r : nat) (tr : StreamableHTTPServerTransport) (s : server) :
  transports s !! r = None -> (r < received s)%nat ->
  sound s -> sound (with_transports (<[r := tr]> (transports s)) s).
Proof.
  intros Hnew Hlt (Hr & Hs & Hn1 & Hn2 & Hn3).
  assert (Hkeep : forall t x, transports s !! t = Some x ->
                              <[r := tr]> (transports s) !! t = Some x).
  { intros t x Hx. rewrite lookup_insert_ne; [exact Hx|]. congruence. }
  split; [|split; [|split; [|split]]].
  - intros id t H. destruct (Hr id t H) as (x & H1 & H2). exists x. simpl. auto.
  - intros r' k H. apply (continuation_sound_mono s); simpl; auto.
  - simpl. intros t [x H].
    apply lookup_insert_Some in H as [[<- <-]|[_ H]]; [exact Hlt|]. apply Hn1. eauto.
  - exact Hn2.
  - exact Hn3.
Qed.

(** [sessions.set(id, transport)] after the connect of that transport. *)
Lemma sound_register (id : string) (r : nat) (s : server) :
  (exists tr, transports s !! r = Some tr
     /\ sessionId tr = Some id /\ initialized tr = true
     /\ In (Connect (Streamable r) true) (log s)
     /\ In (ConnectResolved (Streamable r)) (log s)) ->
  sound s -> sound (with_streamableSessions (<[id := r]> (streamableSessions s)) s).
Proof.
  intros Hnew (Hr & Hs & Hn). split; [|split; [exact Hs|exact Hn]].
  intros id' t. simpl. intros H.
  apply lookup_insert_Some in H as [[<- <-]|[_ H]]; [exact Hnew|now apply Hr].
Qed.

(** [sessions.delete(id)]. *)
Lemma sound_unregister (id : string) (s : server) :
  sound s -> sound (with_streamableSessions (delete id (streamableSessions s)) s).
Proof.
  intros (Hr & Hs & Hn). split; [|split; [exact Hs|exact Hn]].
  intros id' t. simpl. intros H.
  apply lookup_delete_Some in H as [_ H]. now apply Hr.
Qed.

(** The SDK writes the id and the flag of a transport that is not
    initialized: no entry of the map refers to it. *)
Lemma sound_initialize (r : nat) (tr : StreamableHTTPServerTransport) (s : server) :
  suspended s !! r = Some AwaitHandleFresh ->
  sound s -> sound (with_transports (<[r := tr]> (transports s)) (finish r s)).
Proof.
  intros Hk (Hr & Hs & Hn1 & Hn2 & Hn3).
  destruct (Hs r _ Hk) as (old & Hold & Hinit).
  split; [|split; [|split; [|split]]].
  - intros id t H. destruct (Hr id t H) as (x & H1 & H2 & H3 & H4).
    exists x. simpl. rewrite lookup_insert_ne; [auto|].
    intros <-. congruence.
  - intros r' k. simpl. intros H.
    apply lookup_delete_Some in H as [Hne H].
    apply (continuation_sound_mono s); simpl; auto.
    intros x Hx. now rewrite lookup_insert_ne.
  - simpl. intros t [x H].
    apply lookup_insert_Some in H as [[<- <-]|[_ H]]; [|apply Hn1; eauto].
    apply Hn1. eauto.
  - simpl. intros r' [k H]. apply lookup_delete_Some in H as [_ H]. apply Hn2. eauto.
  - exact Hn3.
Qed.

Lemma suspend_finish (r : nat) (k : continuation) (s : server) :
  suspend r k s = suspend r k (finish r s).
Proof.
  unfold suspend, finish, with_suspended. simpl.
  now rewrite insert_delete_eq.
Qed.

Lemma sound_handleStreamable (r : nat) (req : IncomingMessage) (s : server) :
  transports s !! r = None -> (r < received s)%nat ->
  sound s -> sound (handleStreamable r req s).
Proof.
  intros Hnew Hlt Hs. unfold handleStreamable.
  destruct (truthy (headers_mcp_session_id req)) as [id|].
  - destruct (streamableSessions s !! id) as [t|]; [now apply sound_emit|].
    apply sound_suspend; [exact Hlt| |].
    + eexists. simpl. rewrite lookup_insert_eq. split; [reflexivity|].
      simpl. rewrite !in_app_iff. simpl. auto 10.
    + now apply sound_emit, sound_emit, sound_allocate.
  - destruct (String.eqb (method req) "POST"); [|now apply sound_emit].
    apply sound_suspend; [exact Hlt| |].
    + eexists. simpl. rewrite lookup_insert_eq. split; reflexivity.
    + now apply sound_emit, sound_allocate.
Qed.

Lemma sound_on_request (req : IncomingMessage) (p : Platform) (s : server) :
  sound s -> sound (on_request req p s).
Proof.
  intros Hs. unfold on_request.
  assert (Hnew : transports s !! received s = None).
  { destruct (transports s !! received s) eqn:E; [|reflexivity].
    destruct Hs as (_ & _ & Hn & _). specialize (Hn (received s)).
    rewrite E in Hn. specialize (Hn (mk_is_Some _ _ eq_refl)). lia. }
  apply sound_received in Hs.
  destruct (new_URL p) as [url|]; [|now apply sound_emit].
  destruct (String.eqb (pathname url) "/health").
  - unfold handleHealth. destruct (negb _); now apply sound_emit.
  - destruct (String.prefix "/sse" (pathname url)).
    + unfold handleSSE, end_with.
      destruct (String.eqb (method req) "POST").
      * destruct (truthy _) as [id|]; [|now apply sound_emit].
        destruct (sseSessions _ !! id); now apply sound_emit.
      * destruct (String.eqb (method req) "GET"); [|now apply sound_emit].
        apply sound_suspend; [simpl; lia|exact I|].
        now apply sound_emit, sound_emit, sound_sseSessions.
    + apply sound_handleStreamable; [exact Hnew|simpl; lia|exact Hs].
Qed.

Lemma sound_step (e : event) (s : server) : sound s -> sound (step e s).
Proof.
  intros Hs. pose proof Hs as (Hr & Hsu & Hn1 & Hn2 & Hn3).
  destruct e as [req p|r ok|r uuid|r|r|t]; simpl.
  - now apply sound_on_request.
  - destruct (suspended s !! r) as [[transport|id| |id]|] eqn:Hk; try exact Hs.
    + unfold handleSSE_connected.
      assert (Hlt : (r < received s)%nat) by (apply Hn2; eauto).
      destruct ok.
      * now apply sound_listen, sound_emit, sound_finish.
      * now apply sound_emit, sound_emit, sound_finish.
    + unfold handleStreamable_eager_connected.
      destruct (Hsu r _ Hk) as (tr & H1 & H2 & H3 & H4).
      destruct ok.
      * apply sound_emit, sound_register; [|now apply sound_emit, sound_finish].
        exists tr. simpl. rewrite !in_app_iff. simpl. auto 10.
      * now apply sound_emit, sound_emit, sound_finish.
    + unfold onsessioninitialized_connected.
      destruct (Hsu r _ Hk) as (tr & H1 & H2 & H3 & H4).
      destruct ok.
      * apply sound_register; [|now apply sound_emit, sound_finish].
        exists tr. simpl. rewrite !in_app_iff. simpl. auto 10.
      * now apply sound_emit, sound_finish.
  - destruct (suspended s !! r) as [[transport|id| |id]|] eqn:Hk; try exact Hs.
    unfold sdk_initialize. destruct (transports s !! r) as [tr|] eqn:Ht; [|exact Hs].
    assert (Hlt : (r < received s)%nat) by (apply Hn2; eauto).
    rewrite suspend_finish.
    match goal with
    | |- sound (suspend r ?k (finish r (emit ?c (emit ?d (with_transports ?m s))))) =>
        change (sound (suspend r k (emit c (emit d (with_transports m (finish r s))))))
    end.
    apply sound_suspend; [exact Hlt| |].
    + eexists. simpl. rewrite lookup_insert_eq. split; [reflexivity|].
      simpl. rewrite !in_app_iff. simpl. auto 10.
    + now apply sound_emit, sound_emit, sound_initialize.
  - destruct (suspended s !! r) as [[transport|id| |id]|] eqn:Hk; try exact Hs.
    now apply sound_finish.
  - destruct (decide (r ∈ resClosed s)); [exact Hs|].
    destruct (closeListeners _ !! r) as [transport|].
    + unfold sse_close_listener. now apply sound_sseSessions, sound_emit, sound_resClosed.
    + now apply sound_resClosed.
  - unfold onclose. destruct (transports s !! t) as [tr|]; [|exact Hs].
    destruct (truthy (sessionId tr)) as [id|]; [|exact Hs].
    now apply sound_emit, sound_unregister.
Qed.

Lemma sound_run (evs : list event) (s : server) : sound s -> sound (run evs s).
Proof.
  revert s. induction evs as [|e evs IH]; intros s Hs; [exact Hs|].
  simpl. apply IH. now apply sound_step.
Qed.

(** ** C3: a session made by an initialization without header *)

Lemma step_initialize (r : nat) (uuid : string) (s : server)
    (tr : StreamableHTTPServerTransport) :
  suspended s !! r = Some AwaitHandleFresh -> transports s !! r = Some tr ->
  step (Initialize r uuid) s =
    let id := match sessionIdGenerator tr with
              | GenHeader h => h
              | GenRandomUUID => uuid
              end in
    suspend r (AwaitConnectFresh id)
      (emit (Connect (Streamable r) true)
         (emit (TestDebug ("create http session: " +:+ id))
            (with_transports
               (<[r := {| sessionIdGenerator := sessionIdGenerator tr;
                          sessionId := Some id; initialized := true |}]>
                  (transports s)) s))).
Proof.
  intros Hk Ht. simpl. rewrite Hk. unfold sdk_initialize. now rewrite Ht.
Qed.

(** C3. A POST without [mcp-session-id] makes a transport whose id
    generator is the random one and registers nothing; when the SDK
    initializes that transport with id [uuid] the callback starts the
    stateless connect and the map is still as it was; the entry
    [uuid -> transport] is written when that connect resolves (and not at
    all when it rejects). In every state the server can reach, whatever
    events interleave, each entry of the streamable map refers to a transport
    that has the key as session id, is initialized, and whose connect was
    called with the stateless flag and has resolved: no lookup finds a
    transport that is not fully initialized. *)
Theorem fresh_session_registered_after_connect (evs : list event)
    (req : IncomingMessage) (p : Platform) (url : URL) (uuid : string) :
  new_URL p = Some url -> route_by_path (pathname url) = ToStreamable ->
  truthy (headers_mcp_session_id req) = None -> method req = "POST" ->
  let s := run evs startHttpTransport in
  let r := received s in
  let s1 := step (Request req p) s in
  let s2 := step (Initialize r uuid) s1 in
  transports s1 !! r =
    Some {| sessionIdGenerator := GenRandomUUID; sessionId := None;
            initialized := false |}
  /\ log s1 = log s ++ [HandleRequest r r]
  /\ streamableSessions s1 = streamableSessions s
  /\ log s2 = log s1 ++ [TestDebug ("create http session: " +:+ uuid);
                         Connect (Streamable r) true]
  /\ streamableSessions s2 = streamableSessions s
  /\ streamableSessions (step (ConnectSettled r true) s2) =
       <[uuid := r]> (streamableSessions s)
  /\ log (step (ConnectSettled r true) s2) =
       log s2 ++ [ConnectResolved (Streamable r)]
  /\ streamableSessions (step (ConnectSettled r false) s2) = streamableSessions s
  /\ (forall evs' id t,
        streamableSessions (run evs' s1) !! id = Some t ->
        exists tr, transports (run evs' s1) !! t = Some tr
          /\ sessionId tr = Some id /\ initialized tr = true
          /\ In (Connect (Streamable t) true) (log (run evs' s1))
          /\ In (ConnectResolved (Streamable t)) (log (run evs' s1))).
Proof.
  intros Hu Hr Hh Hm s r s1 s2.
  assert (Hsound : sound s1).
  { apply sound_step, sound_run, sound_start. }
  assert (Hs1 : s1 =
    suspend r AwaitHandleFresh
      (emit (HandleRequest r r)
         (with_transports
            (<[r := {| sessionIdGenerator := GenRandomUUID; sessionId := None;
                       initialized := false |}]> (transports s))
            (with_received (S r) s)))).
  { subst s1 r. rewrite (streamable_request req p url s Hu Hr).
    unfold handleStreamable. now rewrite Hh, Hm. }
  clearbody s1.
  assert (Hk1 : suspended s1 !! r = Some AwaitHandleFresh)
    by (rewrite Hs1; simpl; now rewrite lookup_insert_eq).
  assert (Ht1 : transports s1 !! r =
                Some {| sessionIdGenerator := GenRandomUUID; sessionId := None;
                        initialized := false |})
    by (rewrite Hs1; simpl; now rewrite lookup_insert_eq).
  assert (Hs2 : s2 =
    suspend r (AwaitConnectFresh uuid)
      (emit (Connect (Streamable r) true)
         (emit (TestDebug ("create http session: " +:+ uuid))
            (with_transports
               (<[r := {| sessionIdGenerator := GenRandomUUID;
                          sessionId := Some uuid; initialized := true |}]>
                  (transports s1)) s1)))).
  { subst s2. now rewrite (step_initialize r uuid s1 _ Hk1 Ht1). }
  clearbody s2.
  split; [|split; [|split; [|split; [|split; [|split; [|split; [|split]]]]]]].
  - exact Ht1.
  - now rewrite Hs1.
  - now rewrite Hs1.
  - rewrite Hs2. simpl. now rewrite <- app_assoc.
  - now rewrite Hs2, Hs1.
  - rewrite Hs2. simpl. rewrite lookup_insert_eq. simpl. now rewrite Hs1.
  - rewrite Hs2. simpl. rewrite lookup_insert_eq. reflexivity.
  - rewrite Hs2. simpl. rewrite lookup_insert_eq. simpl. now rewrite Hs1.
  - intros evs' id t Hl. exact (proj1 (sound_run evs' s1 Hsound) id t Hl).
Qed.

Lemma fresh_session_registered_after_connect_witness :
  truthy (headers_mcp_session_id (Examples.request "POST" "/mcp" None)) = None
  /\ method (Examples.request "POST" "/mcp" None) = "POST"
  /\ streamableSessions
       (step (ConnectSettled (received (run [] startHttpTransport)) true)
          (step (Initialize (received (run [] startHttpTransport)) "U1")
             (step (Request (Examples.request "POST" "/mcp" None)
                      (Examples.platform (Examples.parsed "/mcp" None) "unused"))
                   (run [] startHttpTransport)))) =
     <["U1" := received (run [] startHttpTransport)]>
       (streamableSessions (run [] startHttpTransport)).
Proof.
  split; [reflexivity|]. split; [reflexivity|].
  exact (proj1 (proj2 (proj2 (proj2 (proj2 (proj2
           (fresh_session_registered_after_connect []
              (Examples.request "POST" "/mcp" None)
              (Examples.platform (Examples.parsed "/mcp" None) "unused")
              {| pathname := "/mcp"; searchParams_get_sessionId := None |}
              "U1" eq_refl eq_refl eq_refl eq_refl))))))).
Defined.

(** ** C7: the stateless flag *)

Ltac crush_step :=
  unfold on_request, handleHealth, handleSSE, handleSSE_connected,
    sse_close_listener, onclose, handleStreamable,
    handleStreamable_eager_connected, sdk_initialize,
    onsessioninitialized_connected, end_with, suspend, finish;
  repeat match goal with
         | |- context [match ?x with _ => _ end] => destruct x
         end.

Lemma step_flags (e : event) (s : server) :
  Forall flag_ok (log s) -> Forall flag_ok (log (step e s)).
Proof.
  intros H. destruct e; simpl; crush_step; simpl;
    rewrite ?Forall_app; repeat split; auto; repeat constructor.
Qed.

Lemma run_flags (evs : list event) (s : server) :
  Forall flag_ok (log s) -> Forall flag_ok (log (run evs s)).
Proof.
  revert s. induction evs as [|e evs IH]; intros s H; [exact H|].
  simpl. now apply IH, step_flags.
Qed.

(** C7. Whatever the options and the events, every connect the process has
    made passes [true] for a streamable transport and [false] for a legacy
    and for the stdio transport. Without a port the process makes exactly
    one connect, on the stdio transport with [false]. Both streamable paths
    (the header path when the request arrives, the path without header when
    the SDK initializes the transport) and the legacy GET do make the
    connect. *)
Theorem connect_flag_by_transport (o : options) (evs : list event) :
  (forall t flag, In (Connect t flag) (calls_of o evs) -> flag = stateless_flag t)
  /\ (port o = None -> calls_of o evs = [Connect Stdio false])
  /\ (forall r req id s,
        headers_mcp_session_id req = Some id -> id <> "" ->
        streamableSessions s !! id = None ->
        In (Connect (Streamable r) true) (log (handleStreamable r req s)))
  /\ (forall r uuid s tr,
        suspended s !! r = Some AwaitHandleFresh -> transports s !! r = Some tr ->
        In (Connect (Streamable r) true) (log (step (Initialize r uuid) s)))
  /\ (forall r req url p s,
        method req = "GET" ->
        In (Connect (Sse {| sse_obj := r; sse_sessionId := randomUUID p |}) false)
           (log (handleSSE r req url p s))).
Proof.
  split; [|split; [|split; [|split]]].
  - intros t flag Hin.
    assert (Hall : Forall flag_ok (calls_of o evs)).
    { unfold calls_of, start. destruct (port o).
      - apply run_flags. constructor.
      - repeat constructor. }
    rewrite List.Forall_forall in Hall. exact (Hall _ Hin).
  - intros Hp. unfold calls_of, start. now rewrite Hp.
  - intros r req id s Hh Hid Hnone.
    rewrite (handleStreamable_eager r req id s Hh Hid Hnone). simpl.
    rewrite !in_app_iff. simpl. auto.
  - intros r uuid s tr Hk Ht. rewrite (step_initialize r uuid s tr Hk Ht). simpl.
    rewrite !in_app_iff. simpl. auto.
  - intros r req url p s Hm. unfold handleSSE. rewrite Hm. simpl.
    rewrite !in_app_iff. simpl. auto.
Qed.

Lemma connect_flag_by_transport_witness :
  In (Connect (Streamable 2) true)
     (calls_of {| host := None; port := Some 8931 |}
        [Examples.get_sse "S1"; ConnectSettled 0 true;
         Examples.get_sse "S2"; ConnectSettled 1 true;
         Examples.mcp "POST" (Some "S3"); ConnectSettled 2 true])
  /\ true = stateless_flag (Streamable 2).
Proof.
  assert (Hin : In (Connect (Streamable 2) true)
     (calls_of {| host := None; port := Some 8931 |}
        [Examples.get_sse "S1"; ConnectSettled 0 true;
         Examples.get_sse "S2"; ConnectSettled 1 true;
         Examples.mcp "POST" (Some "S3"); ConnectSettled 2 true])).
  { vm_compute. auto 10. }
  split; [exact Hin|].
  exact (proj1 (connect_flag_by_transport _ _) _ _ Hin).
Defined.

(** ** C6: a URL the constructor rejects *)

(** C6, as stated, fails: for the request line [GET *:x HTTP/1.1] the URL
    constructor throws, and the listener does not do what the streamable
    adapter would do with the request (answer 400 "Invalid request"): it
    writes no response and its promise rejects. *)
Lemma unparseable_url_is_not_routed :
  new_URL (Examples.platform None "unused") = None
  /\ step Examples.bad_target startHttpTransport <>
       handleStreamable 0 (Examples.request "GET" "*:x" None)
         (with_received 1 startHttpTransport)
  /\ log (handleStreamable 0 (Examples.request "GET" "*:x" None)
            (with_received 1 startHttpTransport)) = [Respond 0 invalid_request]
  /\ log (step Examples.bad_target startHttpTransport) = [Rejected 0].
Proof.
  split; [reflexivity|]. split; [|split; reflexivity].
  intros H. apply (f_equal log) in H. discriminate H.
Qed.

(** C6, amended. When the URL constructor rejects the URL of a request, the
    listener stops there: no handler runs, no response is written, nothing is
    forwarded, both maps and every other part of the state but the request
    counter are left as they were, and the listener's promise rejects. *)
Theorem unparseable_url_rejects (req : IncomingMessage) (p : Platform) (s : server) :
  new_URL p = None ->
  step (Request req p) s =
    emit (Rejected (received s)) (with_received (S (received s)) s)
  /\ sseSessions (step (Request req p) s) = sseSessions s
  /\ streamableSessions (step (Request req p) s) = streamableSessions s
  /\ transports (step (Request req p) s) = transports s
  /\ suspended (step (Request req p) s) = suspended s
  /\ log (step (Request req p) s) = log s ++ [Rejected (received s)].
Proof.
  intros H. simpl. unfold on_request. rewrite H. repeat split.
Qed.

Lemma unparseable_url_rejects_witness :
  new_URL (Examples.platform None "unused") = None
  /\ log (step Examples.bad_target Examples.two_legacy_one_streamable) =
     log Examples.two_legacy_one_streamable ++ [Rejected 3].
Proof.
  split; [reflexivity|].
  destruct (unparseable_url_rejects (Examples.request "GET" "*:x" None)
              (Examples.platform None "unused")
              Examples.two_legacy_one_streamable eq_refl)
    as (_ & _ & _ & _ & _ & H).
  exact H.
Defined.

(** ** C5: closing a legacy session whose connect never resolved *)

(** C5, at the failing inputs. A legacy session is registered by its GET;
    its connect rejects; its connection closes. The entry is still in the
    legacy map, and a POST naming it is handed to the transport instead of
    being answered 404. The same happens when the connection closes while
    the connect is pending, even if the connect then resolves. A session
    whose connect resolved before the close is removed, and so is a
    streamable session. *)
Theorem close_before_listener_leaks :
  (let s := run [Examples.get_sse "S1"; ConnectSettled 0 false; ResClose 0;
                 Examples.post_sse "S1"] startHttpTransport in
   sseSessions s !! "S1" = Some {| sse_obj := 0; sse_sessionId := "S1" |}
   /\ log s = [TraceDebug "create SSE session: S1";
               Connect (Sse {| sse_obj := 0; sse_sessionId := "S1" |}) false;
               ConnectRejected (Sse {| sse_obj := 0; sse_sessionId := "S1" |});
               Rejected 0;
               HandlePostMessage {| sse_obj := 0; sse_sessionId := "S1" |} 1])
  /\ (let s := run [Examples.get_sse "S1"; ResClose 0; ConnectSettled 0 true;
                    Examples.post_sse "S1"] startHttpTransport in
      sseSessions s !! "S1" = Some {| sse_obj := 0; sse_sessionId := "S1" |}
      /\ log s = [TraceDebug "create SSE session: S1";
                  Connect (Sse {| sse_obj := 0; sse_sessionId := "S1" |}) false;
                  ConnectResolved (Sse {| sse_obj := 0; sse_sessionId := "S1" |});
                  HandlePostMessage {| sse_obj := 0; sse_sessionId := "S1" |} 1])
  /\ (let s := run [Examples.get_sse "S1"; ConnectSettled 0 true; ResClose 0;
                    Examples.post_sse "S1"] startHttpTransport in
      sseSessions s !! "S1" = None
      /\ In (Respond 1 {| statusCode := 404; headers := [];
                          body := Text "Session not found" |}) (log s))
  /\ (let s := run [Examples.mcp "POST" (Some "S3"); ConnectSettled 0 true;
                    TransportClose 0] startHttpTransport in
      streamableSessions s !! "S3" = None).
Proof.
  vm_compute. repeat split; auto 10.
Qed.

(** ** C9: a legacy session whose connect rejects *)

Ltac crush_step_eqn :=
  unfold on_request, handleHealth, handleSSE, handleSSE_connected,
    sse_close_listener, onclose, handleStreamable,
    handleStreamable_eager_connected, sdk_initialize,
    onsessioninitialized_connected, end_with, suspend, finish;
  repeat match goal with
         | |- context [match ?x with _ => _ end] => destruct x eqn:?
         end.

Ltac map_cases :=
  repeat match goal with
         | H : <[_ := _]> _ !! _ = Some _ |- _ =>
             apply lookup_insert_Some in H as [[? ?]|[? H]]
         | H : delete _ _ !! _ = Some _ |- _ =>
             apply lookup_delete_Some in H as [? H]
         end.

Lemma guarded_step (U : string) (exempt : nat -> Prop)
    (keep : option SSEServerTransport) (e : event) (s : server) :
  no_draw U e ->
  (forall r, e = ConnectSettled r true -> ~ exempt r) ->
  guarded U exempt keep s -> guarded U exempt keep (step e s).
Proof.
  intros Hd Hex ((Hl & Hsu) & Hk).
  destruct e as [req p|r ok|r uuid|r|r|t]; simpl in *; crush_step_eqn;
    (split; [split|];
     [ intros r' t' H; simpl in H; map_cases; simplify_eq; eauto
     | intros r' t' H; simpl in H; map_cases; simplify_eq; eauto
     | intros t' H; simpl; eauto ]).
  all: try (intros HU; simpl in HU; congruence).
  all: try (rewrite lookup_insert_ne by congruence; eauto).
  all: try (rewrite lookup_delete_ne by (intros ?; eapply Hl; eauto); eauto).
  all: try (intros HU; eapply (Hex _ eq_refl); eauto; fail).
Qed.

Ltac other_key :=
  match goal with
  | |- ?a <> ?b => first [ lia | congruence | intros ->; congruence | intros <-; congruence ]
  end.

Lemma connecting_step (r : nat) (t : SSEServerTransport) (e : event) (s : server) :
  not_settling r e -> connecting r t s -> connecting r t (step e s).
Proof.
  intros Hn (Hk & Hl & Hlt).
  destruct e as [req p|r' ok|r' uuid|r'|r'|t']; simpl in *; crush_step_eqn;
    unfold connecting; simpl;
    rewrite ?lookup_insert_ne, ?lookup_delete_ne by other_key;
    repeat split; auto; try lia.
Qed.

Lemma quiet_step (r : nat) (e : event) (s : server) :
  quiet r s -> quiet r (step e s).
Proof.
  intros (Hk & Hl & Hlt).
  destruct e as [req p|r' ok|r' uuid|r'|r'|t']; simpl in *; crush_step_eqn;
    unfold quiet; simpl;
    rewrite ?lookup_insert_ne, ?lookup_delete_ne by other_key;
    repeat split; auto; try lia.
Qed.

Lemma run_app (evs evs' : list event) (s : server) :
  run (evs ++ evs') s = run evs' (run evs s).
Proof. unfold run. apply fold_left_app. Qed.

Lemma guarded_run (U : string) (exempt : nat -> Prop)
    (keep : option SSEServerTransport) (evs : list event) :
  Forall (no_draw U) evs ->
  Forall (fun e => forall r, e = ConnectSettled r true -> ~ exempt r) evs ->
  forall s, guarded U exempt keep s -> guarded U exempt keep (run evs s).
Proof.
  intros Hd. induction Hd as [|e evs He _ IH]; intros Hex s Hs; [exact Hs|].
  apply Forall_cons in Hex as [Hx Hex].
  simpl. apply IH; [exact Hex|]. now apply guarded_step.
Qed.

Lemma guarded_run_free (U : string) (keep : option SSEServerTransport)
    (evs : list event) (s : server) :
  Forall (no_draw U) evs ->
  guarded U (fun _ => False) keep s -> guarded U (fun _ => False) keep (run evs s).
Proof.
  intros Hd. apply guarded_run; [exact Hd|].
  clear. induction evs; constructor; auto.
Qed.

Lemma guarded_run_connecting (U : string) (r : nat)
    (keep : option SSEServerTransport) (evs : list event) (s : server) :
  Forall (no_draw U) evs -> Forall (not_settling r) evs ->
  guarded U (eq r) keep s -> guarded U (eq r) keep (run evs s).
Proof.
  intros Hd Hn. apply guarded_run; [exact Hd|].
  clear Hd. induction Hn as [|e evs He _ IH]; constructor; auto.
  intros r' -> <-. now apply He.
Qed.

Lemma connecting_run (r : nat) (t : SSEServerTransport) (evs : list event) :
  Forall (not_settling r) evs ->
  forall s, connecting r t s -> connecting r t (run evs s).
Proof.
  intros Hn. induction Hn as [|e evs He _ IH]; intros s Hs; [exact Hs|].
  simpl. apply IH. now apply connecting_step.
Qed.

Lemma quiet_run (r : nat) (evs : list event) (s : server) :
  quiet r s -> quiet r (run evs s).
Proof.
  revert s. induction evs as [|e evs IH]; intros s Hs; [exact Hs|].
  simpl. apply IH. now apply quiet_step.
Qed.

Lemma guarded_start (U : string) :
  guarded U (fun _ => False) None startHttpTransport.
Proof.
  repeat split; simpl; intros *; rewrite ?lookup_empty; discriminate.
Qed.

(** The state in which line 173 leaves the handler of the GET [r]. *)
Lemma legacy_get (req : IncomingMessage) (p : Platform) (url : URL) (s : server) :
  new_URL p = Some url -> route_by_path (pathname url) = ToLegacy ->
  method req = "GET" ->
  let t := {| sse_obj := received s; sse_sessionId := randomUUID p |} in
  step (Request req p) s =
    suspend (received s) (AwaitConnectSse t)
      (emit (Connect (Sse t) false)
         (emit (TraceDebug ("create SSE session: " +:+ randomUUID p))
            (with_sseSessions (<[randomUUID p := t]> (sseSessions s))
               (with_received (S (received s)) s)))).
Proof.
  intros Hu Hr Hm. simpl.
  rewrite (router_dispatch req p url s Hu), Hr. simpl.
  unfold handleSSE. now rewrite Hm.
Qed.

(** C9. A GET on the legacy prefix, handled in any reachable state, puts the
    new session in the legacy map and then calls the connect: while the
    connect is pending the entry is there and the response has no 'close'
    listener; the listener is attached when the connect resolves. If the
    connect rejects instead, the entry is still in the map and the response
    still has no listener after any further events, the close of that
    response among them. (Ids are drawn by [randomUUID]: the statement
    supposes that no other request draws the same one.) *)
Theorem legacy_session_leaks_when_connect_rejects (evs0 evs1 evs2 : list event)
    (req : IncomingMessage) (p : Platform) (url : URL) :
  let U := randomUUID p in
  let s := run evs0 startHttpTransport in
  let r := received s in
  let t := {| sse_obj := r; sse_sessionId := U |} in
  let s1 := step (Request req p) s in
  Forall (no_draw U) (evs0 ++ evs1 ++ evs2) -> Forall (not_settling r) evs1 ->
  new_URL p = Some url -> route_by_path (pathname url) = ToLegacy ->
  method req = "GET" ->
  sseSessions s1 !! U = Some t
  /\ suspended s1 !! r = Some (AwaitConnectSse t)
  /\ closeListeners s1 !! r = None
  /\ log s1 = log s ++ [TraceDebug ("create SSE session: " +:+ U);
                        Connect (Sse t) false]
  /\ closeListeners (step (ConnectSettled r true) (run evs1 s1)) !! r = Some t
  /\ sseSessions (run (evs1 ++ ConnectSettled r false :: evs2) s1) !! U = Some t
  /\ closeListeners (run (evs1 ++ ConnectSettled r false :: evs2) s1) !! r = None.
Proof.
  intros U s r t s1 Hd Hn Hu Hr Hm.
  apply Forall_app in Hd as [Hd0 Hd]. apply Forall_app in Hd as [Hd1 Hd2].
  assert (Hsound : sound s) by apply sound_run, sound_start.
  assert (Hfree : guarded U (fun _ => False) None s)
    by (apply guarded_run_free; [exact Hd0|apply guarded_start]).
  destruct Hsound as (_ & _ & _ & Hb2 & Hb3).
  assert (Hk0 : closeListeners s !! r = None).
  { destruct (closeListeners s !! r) eqn:E; [|reflexivity].
    specialize (Hb3 r). rewrite E in Hb3. specialize (Hb3 (mk_is_Some _ _ eq_refl)).
    subst r. lia. }
  assert (Hs1 : s1 = suspend r (AwaitConnectSse t)
      (emit (Connect (Sse t) false)
         (emit (TraceDebug ("create SSE session: " +:+ U))
            (with_sseSessions (<[U := t]> (sseSessions s))
               (with_received (S r) s)))))
    by (apply (legacy_get req p url s Hu Hr Hm)).
  clearbody s1 s.
  assert (Hc1 : connecting r t s1).
  { rewrite Hs1. repeat split; simpl; [now rewrite lookup_insert_eq|exact Hk0|lia]. }
  assert (Hg1 : guarded U (eq r) (Some t) s1).
  { destruct Hfree as ((Hl & Hsu) & _). rewrite Hs1. repeat split; simpl.
    - exact Hl.
    - intros r' t' H HU. apply lookup_insert_Some in H as [[? ?]|[_ H]]; [auto|].
      exfalso. eauto.
    - intros t' [= <-]. now rewrite lookup_insert_eq. }
  pose proof (connecting_run r t evs1 Hn s1 Hc1) as (Hk1 & Hl1 & Hlt1).
  pose proof (guarded_run_connecting U r (Some t) evs1 s1 Hd1 Hn Hg1)
    as ((Hl1' & Hsu1) & Hkeep1).
  assert (Hq : quiet r (step (ConnectSettled r false) (run evs1 s1))).
  { simpl. rewrite Hk1. repeat split; simpl; [now rewrite lookup_delete_eq|exact Hl1|exact Hlt1]. }
  assert (Hg2 : guarded U (fun _ => False) (Some t)
                  (step (ConnectSettled r false) (run evs1 s1))).
  { simpl. rewrite Hk1. repeat split; simpl.
    - exact Hl1'.
    - intros r' t' H HU. apply lookup_delete_Some in H as [Hne H].
      apply Hne. eauto.
    - exact Hkeep1. }
  split; [|split; [|split; [|split; [|split; [|split]]]]].
  - apply Hg1. reflexivity.
  - apply Hc1.
  - apply Hc1.
  - rewrite Hs1. simpl. now rewrite <- app_assoc.
  - simpl. rewrite Hk1. simpl. now rewrite lookup_insert_eq.
  - rewrite run_app. change (run (ConnectSettled r false :: evs2) (run evs1 s1))
      with (run evs2 (step (ConnectSettled r false) (run evs1 s1))).
    apply (guarded_run_free U (Some t) evs2 _ Hd2 Hg2). reflexivity.
  - rewrite run_app. change (run (ConnectSettled r false :: evs2) (run evs1 s1))
      with (run evs2 (step (ConnectSettled r false) (run evs1 s1))).
    apply (quiet_run r evs2 _ Hq).
Qed.

Lemma legacy_session_leaks_when_connect_rejects_witness :
  Forall (no_draw "S1")
    ([] ++ [ResClose 0] ++ [Examples.post_sse "S1"; Examples.get_health])
  /\ Forall (not_settling (received (run [] startHttpTransport))) [ResClose 0]
  /\ sseSessions
       (run ([ResClose 0] ++
             ConnectSettled (received (run [] startHttpTransport)) false ::
             [Examples.post_sse "S1"; Examples.get_health])
            (step (Request (Examples.request "GET" "/sse" None)
                     (Examples.platform (Examples.parsed "/sse" None) "S1"))
                  (run [] startHttpTransport)))
       !! "S1" =
     Some {| sse_obj := received (run [] startHttpTransport);
             sse_sessionId := "S1" |}.
Proof.
  assert (Hd : Forall (no_draw "S1")
                 ([] ++ [ResClose 0] ++ [Examples.post_sse "S1"; Examples.get_health])).
  { repeat constructor; simpl; discriminate. }
  assert (Hn : Forall (not_settling (received (run [] startHttpTransport)))
                 [ResClose 0]) by (repeat constructor).
  split; [exact Hd|]. split; [exact Hn|].
  exact (proj1 (proj2 (proj2 (proj2 (proj2 (proj2
           (legacy_session_leaks_when_connect_rejects
              [] [ResClose 0] [Examples.post_sse "S1"; Examples.get_health]
              (Examples.request "GET" "/sse" None)
              (Examples.platform (Examples.parsed "/sse" None) "S1")
              {| pathname := "/sse"; searchParams_get_sessionId := None |}
              Hd Hn eq_refl eq_refl eq_refl))))))).
Defined.

(** * Further properties of the transport module *)

(** ** One outcome for each request *)








(** ** Who writes the two maps *)

(** X2. The streamable map is written only when the connect awaited by the
    header path or by the initialization callback resolves (the transport of
    that request is stored) and when a transport with an id is closed (its id
    is deleted); the legacy map only by a GET on the legacy prefix (the new
    transport is stored) and by the 'close' listener of a response (the id of
    its transport is deleted). No other event changes them: receiving a
    request never writes the streamable map, a rejected connect writes
    neither. *)
Theorem maps_written_only_by (e : event) (s : server) :
  (streamableSessions (step e s) = streamableSessions s
   \/ (exists r id, e = ConnectSettled r true
         /\ (suspended s !! r = Some (AwaitConnectEager id)
             \/ suspended s !! r = Some (AwaitConnectFresh id))
         /\ streamableSessions (step e s) = <[id := r]> (streamableSessions s))
   \/ (exists t tr id, e = TransportClose t
         /\ transports s !! t = Some tr /\ truthy (sessionId tr) = Some id
         /\ streamableSessions (step e s) = delete id (streamableSessions s)))
  /\ (sseSessions (step e s) = sseSessions s
      \/ (exists req p url, e = Request req p
            /\ new_URL p = Some url
            /\ route_by_path (pathname url) = ToLegacy /\ method req = "GET"
            /\ sseSessions (step e s) =
                 <[randomUUID p := {| sse_obj := received s;
                                      sse_sessionId := randomUUID p |}]>
                   (sseSessions s))
      \/ (exists r t, e = ResClose r
            /\ ~ (r ∈ resClosed s) /\ closeListeners s !! r = Some t
            /\ sseSessions (step e s) = delete (sse_sessionId t) (sseSessions s))).
Proof.
  destruct e as [req p|r ok|r uuid|r|r|t]; simpl; crush_step_eqn; simpl; split;
    try (left; reflexivity).
  - right; left. exists req, p. eexists. repeat split; eauto.
    + unfold route_by_path.
      repeat match goal with H : _ = _ |- _ => rewrite H end. reflexivity.
    + now apply String.eqb_eq.
  - right; left. eauto 10.
  - right; left. eauto 10.
  - right; right. eauto 10.
  - right; right. eauto 10.
Qed.

(** ** When a session starts to count *)

Lemma health_get (req : IncomingMessage) (p : Platform) (s : server) :
  is_health_get req p ->
  step (Request req p) s =
    emit (Respond (received s) (ok_json (health_data p s)))
         (with_received (S (received s)) s).
Proof.
  intros (Hm & url & Hu & Hp). simpl. unfold on_request. rewrite Hu, Hp. simpl.
  unfold handleHealth. rewrite Hm. reflexivity.
Qed.

Lemma legacy_get_step (req : IncomingMessage) (p : Platform) (s : server) :
  is_legacy_get req p ->
  step (Request req p) s =
    let t := {| sse_obj := received s; sse_sessionId := randomUUID p |} in
    suspend (received s) (AwaitConnectSse t)
      (emit (Connect (Sse t) false)
         (emit (TraceDebug ("create SSE session: " +:+ randomUUID p))
            (with_sseSessions (<[randomUUID p := t]> (sseSessions s))
               (with_received (S (received s)) s)))).
Proof.
  intros (Hm & url & Hu & Hr). now apply (legacy_get req p url s).
Qed.

Lemma streamable_new_step (id : string) (req : IncomingMessage) (p : Platform)
    (s : server) :
  is_streamable_with id req p -> streamableSessions s !! id = None ->
  step (Request req p) s =
    eager_suspended (received s) id (with_received (S (received s)) s).
Proof.
  intros (Hh & Hid & url & Hu & Hr) Hnone.
  rewrite (streamable_request req p url s Hu Hr).
  now apply handleStreamable_eager.
Qed.

(** X3. The health report counts a legacy session from the moment its GET
    is received, while its connect is still pending; a session made from a
    header is not counted while its connect is pending and is counted once
    the connect has resolved. (When the legacy id drawn is already in the
    map the entry is replaced and the count stays.) *)
Theorem health_counts_sessions (req reqH : IncomingMessage) (p pH : Platform)
    (s : server) :
  is_health_get reqH pH ->
  (is_legacy_get req p ->
     let s1 := step (Request req p) s in
     log (step (Request reqH pH) s1) =
       log s1 ++ [Respond (received s1) (ok_json (health_data pH s1))]
     /\ (sseSessions s !! randomUUID p = None ->
           sse (sessions (health_data pH s1)) = S (size (sseSessions s)))
     /\ (is_Some (sseSessions s !! randomUUID p) ->
           sse (sessions (health_data pH s1)) = size (sseSessions s))
     /\ streamable (sessions (health_data pH s1)) = size (streamableSessions s))
  /\ (forall id, is_streamable_with id req p ->
        streamableSessions s !! id = None ->
        let s1 := step (Request req p) s in
        let s2 := step (ConnectSettled (received s) true) s1 in
        log (step (Request reqH pH) s1) =
          log s1 ++ [Respond (received s1) (ok_json (health_data pH s1))]
        /\ streamable (sessions (health_data pH s1)) = size (streamableSessions s)
        /\ log (step (Request reqH pH) s2) =
             log s2 ++ [Respond (received s2) (ok_json (health_data pH s2))]
        /\ streamable (sessions (health_data pH s2)) =
             S (size (streamableSessions s))
        /\ sse (sessions (health_data pH s2)) = size (sseSessions s)).
Proof.
  intros HH. split.
  - intros HL s1. split; [now rewrite (health_get reqH pH s1 HH)|].
    subst s1. rewrite (legacy_get_step req p s HL). simpl.
    split; [|split; [|reflexivity]].
    + intros Hnone. now apply map_size_insert_None.
    + intros Hsome. now apply map_size_insert_Some.
  - intros id HS Hnone s1 s2.
    split; [now rewrite (health_get reqH pH s1 HH)|].
    split; [subst s1; now rewrite (streamable_new_step id req p s HS Hnone)|].
    split; [now rewrite (health_get reqH pH s2 HH)|].
    subst s2 s1. rewrite (streamable_new_step id req p s HS Hnone). simpl.
    rewrite lookup_insert_eq. simpl. split; [|reflexivity].
    now apply map_size_insert_None.
Qed.

Lemma sample_health_get : is_health_get Samples.health_req Samples.health_platform.
Proof. split; [reflexivity|]. eexists. split; reflexivity. Defined.

Lemma sample_legacy_get (uuid : string) :
  is_legacy_get Samples.sse_req (Samples.sse_platform uuid).
Proof. split; [reflexivity|]. eexists. split; reflexivity. Defined.

Lemma sample_streamable_with (m : string) :
  is_streamable_with "S3" (Samples.mcp_req m (Some "S3")) Samples.mcp_platform.
Proof.
  split; [reflexivity|]. split; [discriminate|]. eexists. split; reflexivity.
Defined.

Lemma health_counts_sessions_witness :
  is_health_get Samples.health_req Samples.health_platform
  /\ is_legacy_get Samples.sse_req (Samples.sse_platform "S1")
  /\ sseSessions startHttpTransport !! randomUUID (Samples.sse_platform "S1") = None
  /\ sse (sessions (health_data Samples.health_platform
                      (step (Request Samples.sse_req (Samples.sse_platform "S1"))
                            startHttpTransport))) =
     S (size (sseSessions startHttpTransport)).
Proof.
  assert (Hnone : sseSessions startHttpTransport
                    !! randomUUID (Samples.sse_platform "S1") = None)
    by (vm_compute; reflexivity).
  split; [exact sample_health_get|]. split; [exact (sample_legacy_get "S1")|].
  split; [exact Hnone|].
  exact (proj1 (proj2 (proj1 (health_counts_sessions
           Samples.sse_req Samples.health_req (Samples.sse_platform "S1")
           Samples.health_platform startHttpTransport sample_health_get)
           (sample_legacy_get "S1"))) Hnone).
Defined.

(** ** Closing a streamable transport *)

(** X4. Closing a streamable transport that has no session id yet (or that
    the module does not know) changes nothing. Closing one whose id is [id]
    deletes the entry under [id] and nothing else, whichever transport that
    entry refers to: a transport that was never registered, or was replaced,
    unregisters the session that holds its id. Closing it again changes the
    maps no further. Such a state is reachable: after two requests with the
    same unknown id, closing the transport of the first removes the entry of
    the second. *)
Theorem transport_close_deletes_by_id (t : nat) (s : server) :
  ((transports s !! t = None
    \/ exists tr, transports s !! t = Some tr /\ truthy (sessionId tr) = None) ->
     step (TransportClose t) s = s)
  /\ (forall tr id,
        transports s !! t = Some tr -> sessionId tr = Some id -> id <> "" ->
        streamableSessions (step (TransportClose t) s) =
          delete id (streamableSessions s)
        /\ streamableSessions (step (TransportClose t) s) !! id = None
        /\ (forall id', id' <> id ->
              streamableSessions (step (TransportClose t) s) !! id' =
              streamableSessions s !! id')
        /\ sseSessions (step (TransportClose t) s) = sseSessions s
        /\ transports (step (TransportClose t) s) = transports s
        /\ streamableSessions
             (step (TransportClose t) (step (TransportClose t) s)) =
           streamableSessions (step (TransportClose t) s))
  /\ (let s0 := run [Examples.mcp "POST" (Some "S3"); Examples.mcp "POST" (Some "S3");
                     ConnectSettled 0 true; ConnectSettled 1 true]
                    startHttpTransport in
      streamableSessions s0 !! "S3" = Some 1%nat
      /\ streamableSessions (step (TransportClose 0) s0) !! "S3" = None).
Proof.
  split; [|split].
  - simpl. unfold onclose. intros [-> | (tr & -> & ->)]; reflexivity.
  - intros tr id Ht Hs Hid. simpl. unfold onclose. rewrite Ht, Hs, (truthy_present _ Hid).
    simpl. rewrite Ht, Hs, (truthy_present _ Hid). simpl.
    split; [reflexivity|]. split; [apply lookup_delete_eq|].
    split; [intros id' Hne; now apply lookup_delete_ne|].
    split; [reflexivity|]. split; [reflexivity|]. apply delete_delete_eq.
  - vm_compute. split; reflexivity.
Qed.

Lemma transport_close_deletes_by_id_witness :
  transports (run [Examples.mcp "POST" (Some "S3")] startHttpTransport) !! 0%nat =
    Some {| sessionIdGenerator := GenHeader "S3"; sessionId := Some "S3";
            initialized := true |}
  /\ "S3" <> ""
  /\ streamableSessions
       (step (TransportClose 0)
          (run [Examples.mcp "POST" (Some "S3")] startHttpTransport)) !! "S3" = None.
Proof.
  assert (Ht : transports (run [Examples.mcp "POST" (Some "S3")] startHttpTransport)
                 !! 0%nat =
               Some {| sessionIdGenerator := GenHeader "S3"; sessionId := Some "S3";
                       initialized := true |}) by (vm_compute; reflexivity).
  assert (Hid : "S3" <> "") by discriminate.
  split; [exact Ht|]. split; [exact Hid|].
  exact (proj1 (proj2 (proj1 (proj2 (transport_close_deletes_by_id 0
           (run [Examples.mcp "POST" (Some "S3")] startHttpTransport)))
           _ "S3" Ht eq_refl Hid))).
Defined.

(** ** A header session whose connect rejects *)

(** X5. When the connect started for an unknown header value rejects, the
    streamable map and the legacy map are as before the request, the request
    is not forwarded, the listener rejects and the handler is over; the next
    request with the same value finds no entry and starts over with a
    transport of its own. *)
Theorem header_connect_rejected (id : string) (req : IncomingMessage)
    (p : Platform) (s : server) :
  is_streamable_with id req p -> streamableSessions s !! id = None ->
  let r := received s in
  let s1 := step (Request req p) s in
  let s2 := step (ConnectSettled r false) s1 in
  streamableSessions s2 = streamableSessions s
  /\ sseSessions s2 = sseSessions s
  /\ log s2 = log s1 ++ [ConnectRejected (Streamable r); Rejected r]
  /\ suspended s2 !! r = None
  /\ (forall req' p', is_streamable_with id req' p' ->
        step (Request req' p') s2 =
          eager_suspended (received s2) id (with_received (S (received s2)) s2)).
Proof.
  intros HS Hnone r s1 s2.
  assert (Hs2 : s2 = handleStreamable_eager_connected r id false
                       (eager_suspended r id (with_received (S r) s))).
  { subst s2 s1 r. rewrite (streamable_new_step id req p s HS Hnone). simpl.
    now rewrite lookup_insert_eq. }
  assert (Hm : streamableSessions s2 = streamableSessions s) by now rewrite Hs2.
  split; [exact Hm|]. split; [now rewrite Hs2|].
  split; [subst s1 r; rewrite Hs2, (streamable_new_step id req p s HS Hnone);
          simpl; now rewrite <- !app_assoc|].
  split; [rewrite Hs2; simpl; apply lookup_delete_eq|].
  intros req' p' HS'. apply streamable_new_step; [exact HS'|].
  now rewrite Hm.
Qed.

Lemma header_connect_rejected_witness :
  is_streamable_with "S3" (Samples.mcp_req "GET" (Some "S3")) Samples.mcp_platform
  /\ streamableSessions startHttpTransport !! "S3" = None
  /\ streamableSessions
       (step (ConnectSettled (received startHttpTransport) false)
          (step (Request (Samples.mcp_req "GET" (Some "S3")) Samples.mcp_platform)
                startHttpTransport)) =
     streamableSessions startHttpTransport.
Proof.
  assert (Hnone : streamableSessions startHttpTransport !! "S3" = None)
    by (vm_compute; reflexivity).
  split; [exact (sample_streamable_with "GET")|]. split; [exact Hnone|].
  exact (proj1 (header_connect_rejected "S3" (Samples.mcp_req "GET" (Some "S3"))
                  Samples.mcp_platform startHttpTransport
                  (sample_streamable_with "GET") Hnone)).
Defined.

(** ** Opening and closing a session *)

Lemma connect_settled_sse (r : nat) (t : SSEServerTransport) (ok : bool) (s : server) :
  suspended s !! r = Some (AwaitConnectSse t) ->
  step (ConnectSettled r ok) s = handleSSE_connected r t ok s.
Proof. intros H. simpl. now rewrite H. Qed.

Lemma connect_settled_eager (r : nat) (id : string) (ok : bool) (s : server) :
  suspended s !! r = Some (AwaitConnectEager id) ->
  step (ConnectSettled r ok) s = handleStreamable_eager_connected r id ok s.
Proof. intros H. simpl. now rewrite H. Qed.

Lemma res_close_listener (r : nat) (t : SSEServerTransport) (s : server) :
  ~ (r ∈ resClosed s) -> closeListeners s !! r = Some t ->
  step (ResClose r) s =
    sse_close_listener t (with_resClosed ({[r]} ∪ resClosed s) s).
Proof.
  intros Hout Hl. simpl.
  destruct (decide (r ∈ resClosed s)); [contradiction|]. simpl. now rewrite Hl.
Qed.

(** X6. A legacy session that is opened by a GET (with an id not yet in the
    map), whose connect resolves and whose response then closes, leaves both
    maps exactly as they were before the GET; a second 'close' of that
    response changes nothing; and a POST naming the id is then answered 404
    "Session not found". *)
Theorem legacy_open_close_round_trip (req : IncomingMessage) (p : Platform)
    (s : server) :
  is_legacy_get req p -> sseSessions s !! randomUUID p = None ->
  ~ (received s ∈ resClosed s) ->
  let r := received s in
  let s3 := run [Request req p; ConnectSettled r true; ResClose r] s in
  sseSessions s3 = sseSessions s
  /\ streamableSessions s3 = streamableSessions s
  /\ step (ResClose r) s3 = s3
  /\ (forall req' p', is_legacy_post (randomUUID p) req' p' -> randomUUID p <> "" ->
        step (Request req' p') s3 =
          emit (Respond (received s3) not_found)
               (with_received (S (received s3)) s3)).
Proof.
  intros HL Hnone Hopen r s3.
  set (t := {| sse_obj := r; sse_sessionId := randomUUID p |}).
  pose proof (legacy_get_step req p s HL) as H1. cbv zeta in H1. fold r t in H1.
  assert (Hs3 : s3 =
    sse_close_listener t
      (with_resClosed ({[r]} ∪ resClosed s)
         (handleSSE_connected r t true (step (Request req p) s)))).
  { subst s3.
    change (run [Request req p; ConnectSettled r true; ResClose r] s)
      with (step (ResClose r) (step (ConnectSettled r true) (step (Request req p) s))).
    rewrite (connect_settled_sse r t true (step (Request req p) s))
      by (rewrite H1; simpl; apply lookup_insert_eq).
    rewrite (res_close_listener r t).
    - now rewrite H1.
    - rewrite H1. exact Hopen.
    - rewrite H1. simpl. apply lookup_insert_eq. }
  assert (Hm : sseSessions s3 = sseSessions s).
  { rewrite Hs3, H1. simpl. now apply delete_insert_id. }
  clearbody s3.
  split; [exact Hm|]. split; [rewrite Hs3, H1; reflexivity|].
  split.
  - simpl. destruct (decide (r ∈ resClosed s3)) as [_|Hout]; [reflexivity|].
    exfalso. apply Hout. rewrite Hs3. simpl. set_solver.
  - intros req' p' (Hm' & url & Hu & Hr & Hq) Hid. simpl.
    rewrite (router_dispatch req' p' url s3 Hu), Hr. simpl.
    unfold handleSSE. rewrite Hm', Hq, (truthy_present _ Hid). simpl.
    now rewrite Hm, Hnone.
Qed.

Lemma legacy_open_close_round_trip_witness :
  is_legacy_get Samples.sse_req (Samples.sse_platform "S1")
  /\ sseSessions startHttpTransport !! randomUUID (Samples.sse_platform "S1") = None
  /\ ~ (received startHttpTransport ∈ resClosed startHttpTransport)
  /\ sseSessions
       (run [Request Samples.sse_req (Samples.sse_platform "S1");
             ConnectSettled (received startHttpTransport) true;
             ResClose (received startHttpTransport)] startHttpTransport) =
     sseSessions startHttpTransport.
Proof.
  assert (Hnone : sseSessions startHttpTransport
                    !! randomUUID (Samples.sse_platform "S1") = None)
    by (vm_compute; reflexivity).
  assert (Hopen : ~ (received startHttpTransport ∈ resClosed startHttpTransport))
    by (simpl; apply not_elem_of_empty).
  split; [exact (sample_legacy_get "S1")|]. split; [exact Hnone|].
  split; [exact Hopen|].
  exact (proj1 (legacy_open_close_round_trip Samples.sse_req
                  (Samples.sse_platform "S1") startHttpTransport
                  (sample_legacy_get "S1") Hnone Hopen)).
Defined.

Lemma onclose_with_id (t : nat) (tr : StreamableHTTPServerTransport) (id : string)
    (s : server) :
  transports s !! t = Some tr -> sessionId tr = Some id -> id <> "" ->
  onclose t s =
    emit (TestDebug ("delete http session: " +:+ id))
         (with_streamableSessions (delete id (streamableSessions s)) s).
Proof.
  intros Ht Hs Hid. unfold onclose. now rewrite Ht, Hs, (truthy_present _ Hid).
Qed.

(** X7. A session made from an unknown header value, whose connect
    resolves and whose transport is then closed, leaves both maps exactly as
    they were before the request, so that the next request with the same
    value is treated as the first one was: it finds no entry and a new
    transport is made for it. *)
Theorem header_session_round_trip (id : string) (req : IncomingMessage)
    (p : Platform) (s : server) :
  is_streamable_with id req p -> streamableSessions s !! id = None ->
  let r := received s in
  let s3 := run [Request req p; ConnectSettled r true; TransportClose r] s in
  streamableSessions s3 = streamableSessions s
  /\ sseSessions s3 = sseSessions s
  /\ (forall req' p', is_streamable_with id req' p' ->
        step (Request req' p') s3 =
          eager_suspended (received s3) id (with_received (S (received s3)) s3)).
Proof.
  intros HS Hnone r s3.
  pose proof HS as (_ & Hid & _).
  pose proof (streamable_new_step id req p s HS Hnone) as H1. fold r in H1.
  assert (Hs3 : s3 =
    onclose r (handleStreamable_eager_connected r id true (step (Request req p) s))).
  { subst s3.
    change (run [Request req p; ConnectSettled r true; TransportClose r] s)
      with (step (TransportClose r)
              (step (ConnectSettled r true) (step (Request req p) s))).
    rewrite (connect_settled_eager r id true (step (Request req p) s))
      by (rewrite H1; simpl; apply lookup_insert_eq).
    reflexivity. }
  assert (Hc : s3 =
    emit (TestDebug ("delete http session: " +:+ id))
      (with_streamableSessions
         (delete id (streamableSessions
            (handleStreamable_eager_connected r id true (step (Request req p) s))))
         (handleStreamable_eager_connected r id true (step (Request req p) s)))).
  { rewrite Hs3. apply (onclose_with_id r
      {| sessionIdGenerator := GenHeader id; sessionId := Some id;
         initialized := true |}); [|reflexivity|exact Hid].
    rewrite H1. simpl. apply lookup_insert_eq. }
  assert (Hm : streamableSessions s3 = streamableSessions s).
  { rewrite Hc, H1. simpl. now apply delete_insert_id. }
  clearbody s3. split; [exact Hm|]. split.
  - now rewrite Hc, H1.
  - intros req' p' HS'. apply streamable_new_step; [exact HS'|]. now rewrite Hm.
Qed.

Lemma header_session_round_trip_witness :
  is_streamable_with "S3" (Samples.mcp_req "POST" (Some "S3")) Samples.mcp_platform
  /\ streamableSessions startHttpTransport !! "S3" = None
  /\ streamableSessions
       (run [Request (Samples.mcp_req "POST" (Some "S3")) Samples.mcp_platform;
             ConnectSettled (received startHttpTransport) true;
             TransportClose (received startHttpTransport)] startHttpTransport) =
     streamableSessions startHttpTransport.
Proof.
  assert (Hnone : streamableSessions startHttpTransport !! "S3" = None)
    by (vm_compute; reflexivity).
  split; [exact (sample_streamable_with "POST")|]. split; [exact Hnone|].
  exact (proj1 (header_session_round_trip "S3"
                  (Samples.mcp_req "POST" (Some "S3")) Samples.mcp_platform
                  startHttpTransport (sample_streamable_with "POST") Hnone)).
Defined.

(** ** A POST that does not initialize *)

Lemma unregistered_step (r : nat) (e : event) (s : server) :
  unregistered r s -> unregistered r (step e s).
Proof.
  intros (Hk & Hlt & Hm).
  destruct e as [req p|r' ok|r' uuid|r'|r'|t']; simpl in *; crush_step_eqn;
    unfold unregistered; simpl;
    rewrite ?lookup_insert_ne, ?lookup_delete_ne by other_key;
    (split; [|split]); auto; try lia;
    intros id' H; map_cases; simplify_eq; try congruence; eapply Hm; eauto.
Qed.

Lemma unregistered_run (r : nat) (evs : list event) (s : server) :
  unregistered r s -> unregistered r (run evs s).
Proof.
  revert s. induction evs as [|e evs IH]; intros s Hs; [exact Hs|].
  simpl. apply IH. now apply unregistered_step.
Qed.

Lemma handle_settled_fresh (r : nat) (s : server) :
  suspended s !! r = Some AwaitHandleFresh ->
  step (HandleSettled r) s = finish r s.
Proof. intros H. simpl. now rewrite H. Qed.

(** X8. A POST without session header makes a transport and hands the
    request to it; when the SDK finishes that request without initializing
    the transport, the handler is over and the transport is never stored in
    the streamable map, whatever events follow: such a request leaves no
    session behind. *)
Theorem uninitialized_post_leaves_no_session (evs0 evs : list event)
    (req : IncomingMessage) (p : Platform) :
  is_streamable_post req p ->
  let s := run evs0 startHttpTransport in
  let r := received s in
  let s2 := run (Request req p :: HandleSettled r :: evs) s in
  log (step (Request req p) s) = log s ++ [HandleRequest r r]
  /\ suspended s2 !! r = None
  /\ forall id, streamableSessions s2 !! id <> Some r.
Proof.
  intros (Hh & Hm & url & Hu & Hr) s r s2.
  assert (Hsound : sound s) by apply sound_run, sound_start.
  assert (H1 : step (Request req p) s =
    suspend r AwaitHandleFresh
      (emit (HandleRequest r r)
         (with_transports
            (<[r := {| sessionIdGenerator := GenRandomUUID; sessionId := None;
                       initialized := false |}]> (transports s))
            (with_received (S r) s)))).
  { rewrite (streamable_request req p url s Hu Hr).
    unfold handleStreamable. now rewrite Hh, Hm. }
  assert (Hun : unregistered r (step (HandleSettled r) (step (Request req p) s))).
  { rewrite (handle_settled_fresh r (step (Request req p) s))
      by (rewrite H1; simpl; apply lookup_insert_eq).
    rewrite H1. repeat split; simpl.
    - apply lookup_delete_eq.
    - lia.
    - intros id Hid. destruct Hsound as (Hreg & _ & Hb & _).
      destruct (Hreg id r Hid) as (tr & Ht & _).
      specialize (Hb r (mk_is_Some _ _ Ht)). subst r. lia. }
  split; [now rewrite H1|].
  change s2 with (run evs (step (HandleSettled r) (step (Request req p) s))).
  destruct (unregistered_run r evs _ Hun) as (Hk & _ & Hm'). auto.
Qed.

Lemma sample_streamable_post :
  is_streamable_post (Samples.mcp_req "POST" None) Samples.mcp_platform.
Proof.
  split; [reflexivity|]. split; [reflexivity|]. eexists. split; reflexivity.
Defined.

Lemma uninitialized_post_leaves_no_session_witness :
  is_streamable_post (Samples.mcp_req "POST" None) Samples.mcp_platform
  /\ suspended
       (run (Request (Samples.mcp_req "POST" None) Samples.mcp_platform
             :: HandleSettled (received (run [] startHttpTransport))
             :: [Initialize 0 "U1"; ConnectSettled 0 true])
            (run [] startHttpTransport))
       !! received (run [] startHttpTransport) = None.
Proof.
  split; [exact sample_streamable_post|].
  exact (proj1 (proj2 (uninitialized_post_leaves_no_session []
           [Initialize 0 "U1"; ConnectSettled 0 true]
           (Samples.mcp_req "POST" None) Samples.mcp_platform
           sample_streamable_post))).
Defined.

(** * The health-check patch and the router *)

Lemma on_request_log (req : IncomingMessage) (p : Platform) (s : server) :
  exists l, log (on_request req p s) = log s ++ l
            /\ Forall (fun e => forall r resp, e = Respond r resp -> r = received s) l.
Proof.
  unfold on_request. crush_step_eqn; simpl; rewrite <- ?app_assoc; simpl;
    eexists; (split; [reflexivity|]);
    repeat constructor; intros; simplify_eq; reflexivity.
Qed.

Lemma drop_own_length {A} (l l' : list A) : drop (length l) (l ++ l') = l'.
Proof. induction l; simpl; auto. Qed.

Lemma healthcheck_listener_answers (req : IncomingMessage) (p : Platform)
    (now : string) :
  (exists a, healthcheck_listener req p now = Some a) <->
  url req <> ""
  /\ method req = "GET"
  /\ exists u, new_URL p = Some u
               /\ (pathname u = "/health" \/ pathname u = "/healthcheck").
Proof.
  unfold healthcheck_listener.
  destruct (String.eqb_spec (url req) "") as [He|He].
  - split; [intros [a H]; discriminate|intros (H & _); contradiction].
  - destruct (new_URL p) as [u|].
    + destruct (String.eqb_spec (pathname u) "/health") as [Hp|Hp];
        destruct (String.eqb_spec (pathname u) "/healthcheck") as [Hq|Hq];
        destruct (String.eqb_spec (method req) "GET") as [Hm|Hm]; simpl;
        split; try (intros [a H]; discriminate); eauto 10;
        intros (_ & Hm' & u' & [= <-] & [H|H]); congruence.
    + split; [intros [a H]; discriminate|].
      intros (_ & _ & u & H & _). discriminate.
Qed.

(** X9. The prepended listener answers a request exactly when its target is
    not empty, its URL parses with path "/health" or "/healthcheck", and its
    method is GET; the answer is then 200 with the JSON of the status "ok"
    and the timestamp. In every other case (an unparseable URL among them:
    the exception is swallowed) it leaves the response alone, and the server
    does exactly what the router alone does with the request: a POST to
    "/health" still gets the router's 405, an unparseable URL still makes the
    router's listener reject. *)
Theorem healthcheck_patch_is_transparent (req : IncomingMessage) (p : Platform)
    (now : string) (s : patched) :
  ((exists a, healthcheck_listener req p now = Some a) <->
   url req <> "" /\ method req = "GET"
   /\ exists u, new_URL p = Some u
                /\ (pathname u = "/health" \/ pathname u = "/healthcheck"))
  /\ (forall a, healthcheck_listener req p now = Some a ->
        a = {| hc_statusCode := 200;
               hc_headers := [("Content-Type", "application/json")];
               hc_body := {| hc_status := "ok"; hc_timestamp := now |} |})
  /\ (healthcheck_listener req p now = None ->
        router (patched_request req p now s) = on_request req p (router s)
        /\ healthchecks (patched_request req p now s) = healthchecks s)
  /\ (method req <> "GET" ->
        router (patched_request req p now s) = on_request req p (router s))
  /\ (new_URL p = None ->
        router (patched_request req p now s) =
          emit (Rejected (received (router s)))
               (with_received (S (received (router s))) (router s))).
Proof.
  split; [apply healthcheck_listener_answers|].
  split.
  { unfold healthcheck_listener. intros a.
    destruct (String.eqb (url req) ""); [discriminate|].
    destruct (new_URL p); [|discriminate].
    destruct (_ && _); [|discriminate]. now intros [= <-]. }
  assert (Hnone : healthcheck_listener req p now = None ->
            router (patched_request req p now s) = on_request req p (router s)
            /\ healthchecks (patched_request req p now s) = healthchecks s).
  { intros H. unfold patched_request. rewrite H. split; reflexivity. }
  split; [exact Hnone|]. split.
  - intros Hm. apply Hnone.
    destruct (healthcheck_listener req p now) eqn:E; [|reflexivity].
    exfalso. apply Hm.
    apply (proj1 (healthcheck_listener_answers req p now)). eauto.
  - intros Hu.
    assert (E : healthcheck_listener req p now = None).
    { destruct (healthcheck_listener req p now) eqn:E; [|reflexivity].
      destruct (proj1 (healthcheck_listener_answers req p now) (ex_intro _ _ E))
        as (_ & _ & u & Hu' & _). congruence. }
    rewrite (proj1 (Hnone E)). unfold on_request. now rewrite Hu.
Qed.

Lemma healthcheck_patch_is_transparent_witness :
  method (Examples.request "POST" "/health" None) <> "GET"
  /\ router (patched_request (Examples.request "POST" "/health" None)
              Samples.health_platform "2025-06-01T12:00:00.001Z"
              {| router := startHttpTransport; healthchecks := [] |}) =
     on_request (Examples.request "POST" "/health" None) Samples.health_platform
       (router {| router := startHttpTransport; healthchecks := [] |}).
Proof.
  assert (Hm : method (Examples.request "POST" "/health" None) <> "GET")
    by discriminate.
  split; [exact Hm|].
  exact (proj1 (proj2 (proj2 (proj2 (healthcheck_patch_is_transparent
           (Examples.request "POST" "/health" None) Samples.health_platform
           "2025-06-01T12:00:00.001Z"
           {| router := startHttpTransport; healthchecks := [] |})))) Hm).
Defined.

Lemma on_request_report (req : IncomingMessage) (p : Platform) (s : server)
    (r : nat) (h : healthData) :
  In (Respond r (ok_json h)) (log (on_request req p s)) ->
  In (Respond r (ok_json h)) (log s)
  \/ (method req = "GET"
      /\ exists u, new_URL p = Some u /\ pathname u = "/health").
Proof.
  unfold on_request. crush_step_eqn; simpl; rewrite ?in_app_iff; simpl;
    intros H; try (intuition discriminate).
  right. split.
  - apply String.eqb_eq. now apply negb_false_iff.
  - eexists. split; [reflexivity|]. now apply String.eqb_eq.
Qed.

Lemma on_request_muted_log (req : IncomingMessage) (p : Platform) (s : server) :
  exists l, log (on_request_muted req p s) = log s ++ l
            /\ Forall (fun e => forall r resp, e <> Respond r resp) l.
Proof.
  destruct (on_request_log req p s) as (l & Hl & Hall).
  unfold on_request_muted. simpl. rewrite Hl, drop_own_length.
  eexists. split; [reflexivity|].
  clear Hl. induction Hall as [|e l He _ IH]; simpl; [constructor|].
  destruct e; simpl; try (constructor; [intros; discriminate|exact IH]).
  destruct (Nat.eqb_spec r (received s)) as [->|Hne]; simpl; [exact IH|].
  exfalso. apply Hne. eapply He. reflexivity.
Qed.

(** X10. On a server that carries the patch, the router's health report
    (the 200 answer with the session counts, uptime and memory) is never
    written: a GET to "/health" is answered by the patch with its short
    body, the router's handler runs on the silenced response and leaves the
    log and both maps as they were; any other request does not reach the
    branch that writes the report. *)
Theorem patched_server_never_writes_report (req : IncomingMessage)
    (p : Platform) (now : string) (s : patched) :
  empty_target_is_root req p ->
  (forall r h,
     In (Respond r (ok_json h)) (log (router (patched_request req p now s))) ->
     In (Respond r (ok_json h)) (log (router s)))
  /\ (url req <> "" -> is_health_get req p ->
        log (router (patched_request req p now s)) = log (router s)
        /\ sseSessions (router (patched_request req p now s)) = sseSessions (router s)
        /\ streamableSessions (router (patched_request req p now s)) =
             streamableSessions (router s)
        /\ healthchecks (patched_request req p now s) =
             healthchecks s ++
             [(received (router s),
               {| hc_statusCode := 200;
                  hc_headers := [("Content-Type", "application/json")];
                  hc_body := {| hc_status := "ok"; hc_timestamp := now |} |})]).
Proof.
  intros Hroot. split.
  - intros r h. unfold patched_request.
    destruct (healthcheck_listener req p now) as [a|] eqn:E; cbn [router].
    + destruct (on_request_muted_log req p (router s)) as (l & -> & Hall).
      rewrite in_app_iff. intros [H|H]; [exact H|].
      rewrite List.Forall_forall in Hall. exfalso. exact (Hall _ H _ _ eq_refl).
    + intros H. apply on_request_report in H as [H|(Hm & u & Hu & Hp)]; [exact H|].
      exfalso.
      destruct (String.eqb_spec (url req) "") as [He|He].
      * destruct (Hroot He) as (u' & Hu' & Hp'). congruence.
      * assert (Hex : exists a, healthcheck_listener req p now = Some a).
        { apply healthcheck_listener_answers. eauto 10. }
        destruct Hex as [a Ha]. congruence.
  - intros He (Hm & u & Hu & Hp). unfold patched_request, healthcheck_listener.
    destruct (String.eqb_spec (url req) ""); [contradiction|].
    rewrite Hu, Hp, Hm. simpl.
    unfold on_request_muted, on_request. rewrite Hu, Hp. simpl.
    unfold handleHealth. rewrite Hm. simpl.
    rewrite drop_own_length. simpl. rewrite Nat.eqb_refl. simpl.
    rewrite app_nil_r. repeat split.
Qed.

Lemma sample_target_not_empty (m target : string) (h : option string) (p : Platform) :
  target <> "" -> empty_target_is_root (Examples.request m target h) p.
Proof. intros Hne He. simpl in He. contradiction. Defined.

Lemma patched_server_never_writes_report_witness :
  empty_target_is_root Samples.health_req Samples.health_platform
  /\ url Samples.health_req <> ""
  /\ is_health_get Samples.health_req Samples.health_platform
  /\ log (router (patched_request Samples.health_req Samples.health_platform
                    "2025-06-01T12:00:00.001Z"
                    {| router := Examples.two_legacy_one_streamable;
                       healthchecks := [] |})) =
     log (router {| router := Examples.two_legacy_one_streamable;
                    healthchecks := [] |}).
Proof.
  assert (Hne : url Samples.health_req <> "") by discriminate.
  assert (Hroot : empty_target_is_root Samples.health_req Samples.health_platform)
    by (apply sample_target_not_empty; discriminate).
  split; [exact Hroot|]. split; [exact Hne|]. split; [exact sample_health_get|].
  exact (proj1 (proj2 (patched_server_never_writes_report
           Samples.health_req Samples.health_platform "2025-06-01T12:00:00.001Z"
           {| router := Examples.two_legacy_one_streamable; healthchecks := [] |}
           Hroot) Hne sample_health_get)).
Defined.

Lemma with_log_same (l : list effect) (s : server) :
  log s = l -> with_log l s = s.
Proof. destruct s. simpl. now intros ->. Qed.

(** X11. A GET to "/healthcheck" is answered by the patch, and the router's
    listener still runs on it, in its streamable branch. Without session
    header the router's 400 is lost and its state is unchanged but for the
    request counter; with the id of a registered session the request is
    still handed to that session's transport; with an unknown id the router
    still makes a transport under that id and starts its connect, exactly as
    on a server without the patch: a health probe that carries a session
    header opens a session. *)
Theorem healthcheck_probe_reaches_router (req : IncomingMessage) (p : Platform)
    (now : string) (u : URL) (s : patched) :
  url req <> "" -> method req = "GET" ->
  new_URL p = Some u -> pathname u = "/healthcheck" ->
  let r := received (router s) in
  healthchecks (patched_request req p now s) =
    healthchecks s ++
    [(r, {| hc_statusCode := 200;
            hc_headers := [("Content-Type", "application/json")];
            hc_body := {| hc_status := "ok"; hc_timestamp := now |} |})]
  /\ (truthy (headers_mcp_session_id req) = None ->
        router (patched_request req p now s) =
          with_log (log (router s)) (with_received (S r) (router s)))
  /\ (forall id t, headers_mcp_session_id req = Some id -> id <> "" ->
        streamableSessions (router s) !! id = Some t ->
        router (patched_request req p now s) = on_request req p (router s)
        /\ on_request req p (router s) =
             emit (HandleRequest t r) (with_received (S r) (router s)))
  /\ (forall id, headers_mcp_session_id req = Some id -> id <> "" ->
        streamableSessions (router s) !! id = None ->
        router (patched_request req p now s) = on_request req p (router s)
        /\ on_request req p (router s) =
             eager_suspended r id (with_received (S r) (router s))).
Proof.
  intros He Hm Hu Hp r.
  assert (Ha : healthcheck_listener req p now =
               Some {| hc_statusCode := 200;
                       hc_headers := [("Content-Type", "application/json")];
                       hc_body := {| hc_status := "ok"; hc_timestamp := now |} |}).
  { unfold healthcheck_listener.
    destruct (String.eqb_spec (url req) ""); [contradiction|].
    now rewrite Hu, Hp, Hm. }
  assert (Hr : on_request req p (router s) =
               handleStreamable r req (with_received (S r) (router s))).
  { unfold on_request. now rewrite Hu, Hp. }
  unfold patched_request. rewrite Ha. cbn [router healthchecks].
  unfold on_request_muted. rewrite Hr. fold r.
  split; [reflexivity|]. split; [|split].
  - intros Hh. unfold handleStreamable. rewrite Hh, Hm. simpl.
    rewrite drop_own_length. simpl. rewrite Nat.eqb_refl. simpl.
    now rewrite app_nil_r.
  - intros id t Hh Hid Ht. unfold handleStreamable.
    rewrite Hh, (truthy_present _ Hid). simpl. rewrite Ht. simpl.
    rewrite drop_own_length. split; reflexivity.
  - intros id Hh Hid Hnone.
    rewrite (handleStreamable_eager r req id (with_received (S r) (router s)) Hh Hid Hnone).
    split; [|reflexivity].
    apply with_log_same. unfold eager_suspended. simpl. rewrite <- app_assoc.
    now rewrite drop_own_length.
Qed.

Lemma healthcheck_probe_reaches_router_witness :
  url (Examples.request "GET" "/healthcheck" (Some "S3")) <> ""
  /\ method (Examples.request "GET" "/healthcheck" (Some "S3")) = "GET"
  /\ healthchecks
       (patched_request (Examples.request "GET" "/healthcheck" (Some "S3"))
          (Examples.platform (Examples.parsed "/healthcheck" None) "unused")
          "2025-06-01T12:00:00.001Z"
          {| router := startHttpTransport; healthchecks := [] |}) =
     healthchecks {| router := startHttpTransport; healthchecks := [] |} ++
     [(received (router {| router := startHttpTransport; healthchecks := [] |}),
       {| hc_statusCode := 200;
          hc_headers := [("Content-Type", "application/json")];
          hc_body := {| hc_status := "ok";
                        hc_timestamp := "2025-06-01T12:00:00.001Z" |} |})].
Proof.
  assert (Hne : url (Examples.request "GET" "/healthcheck" (Some "S3")) <> "")
    by discriminate.
  split; [exact Hne|]. split; [reflexivity|].
  exact (proj1 (healthcheck_probe_reaches_router
           (Examples.request "GET" "/healthcheck" (Some "S3"))
           (Examples.platform (Examples.parsed "/healthcheck" None) "unused")
           "2025-06-01T12:00:00.001Z"
           {| pathname := "/healthcheck"; searchParams_get_sessionId := None |}
           {| router := startHttpTransport; healthchecks := [] |}
           Hne eq_refl eq_refl eq_refl)).
Defined.

(** * The upload tool *)

(** ** The name of the temporary file *)

Lemma slash_literal : "/" = String (Ascii.ascii_of_nat 47) EmptyString.
Proof. reflexivity. Qed.

Lemma app_slash (a b : string) :
  a +:+ "/" +:+ b =
  match a with
  | EmptyString => String (Ascii.ascii_of_nat 47) b
  | String c a' => String c (a' +:+ "/" +:+ b)
  end.
Proof. destruct a; reflexivity. Qed.

Lemma slash_free_cons (c : Ascii.ascii) (r : string) :
  Upload.slash_free (String c r) <->
  c <> Ascii.ascii_of_nat 47 /\ Upload.slash_free r.
Proof.
  unfold Upload.slash_free. split.
  - intros H. split.
    + intros ->. apply H. exists EmptyString, r. reflexivity.
    + intros (a & b & ->). apply H. exists (String c a), b. reflexivity.
  - intros [Hc Hr] (a & b & H). rewrite app_slash in H. destruct a as [|c' a'].
    + injection H as H1 H2. contradiction.
    + injection H as H1 H2. apply Hr. eauto.
Qed.

Lemma split_slash_nonempty (s : string) : Upload.split_slash s <> [].
Proof.
  destruct s as [|c r]; simpl; [discriminate|].
  destruct (Ascii.eqb c _); [discriminate|].
  destruct (Upload.split_slash r); discriminate.
Qed.

Lemma split_slash_free (s : string) :
  Upload.slash_free s -> Upload.split_slash s = [s].
Proof.
  induction s as [|c r IH]; intros H; [reflexivity|].
  apply slash_free_cons in H as [Hc Hr]. simpl.
  destruct (Ascii.eqb_spec c (Ascii.ascii_of_nat 47)); [contradiction|].
  now rewrite (IH Hr).
Qed.

Lemma last_split_slash (d n : string) :
  last (Upload.split_slash (d +:+ "/" +:+ n)) = last (Upload.split_slash n)
  /\ (2 <= length (Upload.split_slash (d +:+ "/" +:+ n)))%nat.
Proof.
  induction d as [|c d IH]; rewrite app_slash.
  - simpl. pose proof (split_slash_nonempty n).
    destruct (Upload.split_slash n) as [|x l]; [contradiction|].
    split; [reflexivity|simpl; lia].
  - simpl. destruct IH as [IH1 IH2].
    destruct (Ascii.eqb c _).
    + destruct (Upload.split_slash (d +:+ "/" +:+ n)) as [|x l]; simpl in *; [lia|].
      split; [exact IH1|lia].
    + destruct (Upload.split_slash (d +:+ "/" +:+ n)) as [|x [|y l]];
        simpl in *; try lia.
      split; [exact IH1|lia].
Qed.

(** X12. The name given to the temporary file is the part of the S3 key
    after its last "/": a key without "/" is taken whole, and for a key
    [d/n] with [n] not empty and without "/" the name is [n]. A key that
    ends with "/" has an empty last part, which [||] replaces by the whole
    key, slashes included. The name is empty only for the empty key. *)
Theorem fileName_is_last_segment :
  (forall n, Upload.slash_free n -> Upload.fileName n = n)
  /\ (forall d n, Upload.slash_free n -> n <> "" ->
        Upload.fileName (d +:+ "/" +:+ n) = n)
  /\ (forall d, Upload.fileName (d +:+ "/") = d +:+ "/")
  /\ (forall s, Upload.fileName s = "" -> s = "").
Proof.
  unfold Upload.fileName. split; [|split; [|split]].
  - intros n Hn. rewrite (split_slash_free n Hn). simpl. unfold or_else. simpl.
    destruct (String.eqb_spec n ""); congruence.
  - intros d n Hn Hne. rewrite (proj1 (last_split_slash d n)).
    rewrite (split_slash_free n Hn). simpl. unfold or_else.
    now rewrite (truthy_present _ Hne).
  - intros d. change (d +:+ "/") with (d +:+ "/" +:+ "").
    rewrite (proj1 (last_split_slash d "")). reflexivity.
  - intros s. unfold or_else.
    destruct (truthy (last (Upload.split_slash s))) as [x|] eqn:E; [|auto].
    apply truthy_Some in E as [_ Hx]. intros ->. contradiction.
Qed.

Lemma fileName_is_last_segment_witness :
  Upload.slash_free "report.pdf" /\ "report.pdf" <> ""
  /\ Upload.fileName ("uploads/2025" +:+ "/" +:+ "report.pdf") = "report.pdf".
Proof.
  assert (Hs : Upload.slash_free "report.pdf").
  { repeat (apply slash_free_cons; split; [discriminate|]).
    intros (a & b & H). destruct a; discriminate. }
  assert (Hn : "report.pdf" <> "") by discriminate.
  split; [exact Hs|]. split; [exact Hn|].
  exact (proj1 (proj2 fileName_is_last_segment) "uploads/2025" "report.pdf" Hs Hn).
Defined.

(** ** What [handle] leaves behind *)

Lemma download_spec (w : Upload.World) (b r : string) (keys : list string) :
  forall i lp m oe lp' m',
    Upload.download w b r i keys lp m = (oe, lp', m') ->
    exists written acts,
      lp' = lp ++ written
      /\ Upload.actions m' = Upload.actions m ++ acts
      /\ Upload.tempFilePaths m' = Upload.tempFilePaths m
      /\ Forall (fun a => Upload.removes a = false) acts
      /\ (forall p, In p written <-> exists d, In (Upload.WriteFileSync p d) acts)
      /\ (forall p, ~ In p written -> Upload.files m' !! p = Upload.files m !! p)
      /\ (forall p, In p written -> is_Some (Upload.files m' !! p))
      /\ (oe = None -> written = Upload.paths_from w i keys).
Proof.
  assert (Hstop : forall k lp (m : Upload.Machine),
    exists written acts,
      lp = lp ++ written
      /\ Upload.actions (Upload.act (Upload.Send b k r) m) = Upload.actions m ++ acts
      /\ Upload.tempFilePaths (Upload.act (Upload.Send b k r) m) = Upload.tempFilePaths m
      /\ Forall (fun a => Upload.removes a = false) acts
      /\ (forall p, In p written <-> exists d, In (Upload.WriteFileSync p d) acts)
      /\ (forall p, ~ In p written ->
            Upload.files (Upload.act (Upload.Send b k r) m) !! p = Upload.files m !! p)
      /\ (forall p, In p written ->
            is_Some (Upload.files (Upload.act (Upload.Send b k r) m) !! p))).
  { intros k lp m. exists [], [Upload.Send b k r]. rewrite app_nil_r.
    split; [reflexivity|]. split; [reflexivity|]. split; [reflexivity|].
    split; [repeat constructor|]. split; [|split; [reflexivity|]].
    - intros p. split; [intros []|]. intros (d & [Hp|[]]). discriminate.
    - intros p []. }
  induction keys as [|k keys IH]; intros i lp m oe lp' m' H; simpl in H.
  - injection H as <- <- <-. exists [], []. rewrite !app_nil_r.
    split; [reflexivity|]. split; [reflexivity|]. split; [reflexivity|].
    split; [constructor|]. split; [|split; [reflexivity|split]].
    + intros p. split; [intros []|intros (d & [])].
    + intros p [].
    + reflexivity.
  - destruct (Upload.send w i) as [| |chunks complete] eqn:Es.
    + injection H as <- <- <-.
      destruct (Hstop k lp m) as (wr & acts & H1 & H2 & H3 & H4 & H5 & H6 & H7).
      exists wr, acts. repeat (split; [assumption|]). discriminate.
    + injection H as <- <- <-.
      destruct (Hstop k lp m) as (wr & acts & H1 & H2 & H3 & H4 & H5 & H6 & H7).
      exists wr, acts. repeat (split; [assumption|]). discriminate.
    + destruct complete; simpl in H.
      * destruct (Upload.write_fails w i) eqn:Ew.
        -- injection H as <- <- <-.
           destruct (Hstop k lp m) as (wr & acts & H1 & H2 & H3 & H4 & H5 & H6 & H7).
           exists wr, acts. repeat (split; [assumption|]). discriminate.
        -- apply IH in H as (written & acts & -> & Ha & Ht & Hr & Hw & Hf & Hs & Ho).
           exists (Upload.localPath_of w i k :: written),
                  (Upload.Send b k r
                   :: Upload.WriteFileSync (Upload.localPath_of w i k) (concat chunks)
                   :: acts).
           simpl in *. rewrite <- !app_assoc in *. simpl in *.
           split; [reflexivity|]. split; [exact Ha|]. split; [exact Ht|].
           split; [repeat constructor; exact Hr|].
           split; [|split; [|split]].
           ++ intros p. split.
              ** intros [<-|Hp]; [eauto|].
                 apply Hw in Hp as (d & Hd). eauto.
              ** intros (d & [Hp|[Hp|Hp]]); [discriminate| |].
                 --- injection Hp as -> _. auto.
                 --- right. apply Hw. eauto.
           ++ intros p Hp. rewrite Hf by tauto.
              apply lookup_insert_ne. intros <-. tauto.
           ++ intros p [<-|Hp]; [|auto].
              destruct (in_dec string_dec (Upload.localPath_of w i k) written)
                as [Hin|Hout]; [auto|].
              rewrite (Hf _ Hout), lookup_insert_eq. eauto.
           ++ intros Hn. now rewrite (Ho Hn).
      * injection H as <- <- <-.
        destruct (Hstop k lp m) as (wr & acts & H1 & H2 & H3 & H4 & H5 & H6 & H7).
        exists wr, acts. repeat (split; [assumption|]). discriminate.
Qed.




Lemma all_downloads_cons (w : Upload.World) (i : nat) (k : string)
    (keys : list string) :
  Upload.all_downloads_succeed w i (k :: keys) <->
  (Upload.write_fails w i = false
   /\ exists chunks, Upload.send w i = Upload.Body chunks true)
  /\ Upload.all_downloads_succeed w (S i) keys.
Proof.
  unfold Upload.all_downloads_succeed. simpl. split.
  - intros H. split.
    + specialize (H 0%nat). rewrite Nat.add_0_r in H. apply H. lia.
    + intros j Hj. specialize (H (S j)). rewrite Nat.add_succ_r in H.
      apply H. lia.
  - intros [H0 H] [|j] Hj.
    + now rewrite Nat.add_0_r.
    + rewrite Nat.add_succ_r. apply H. lia.
Qed.

Lemma download_ok_iff (w : Upload.World) (b r : string) (keys : list string) :
  forall i lp m,
    fst (fst (Upload.download w b r i keys lp m)) = None
    <-> Upload.all_downloads_succeed w i keys.
Proof.
  induction keys as [|k keys IH]; intros i lp m.
  - simpl. split; [|reflexivity]. intros _ j Hj. simpl in Hj. lia.
  - rewrite all_downloads_cons. simpl.
    destruct (Upload.send w i) as [| |chunks complete]; simpl.
    + split; [discriminate|]. intros [[_ [c Hc]] _]. discriminate.
    + split; [discriminate|]. intros [[_ [c Hc]] _]. discriminate.
    + destruct complete; simpl.
      * destruct (Upload.write_fails w i); simpl.
        -- split; [discriminate|]. intros [[Hc _] _]. discriminate.
        -- rewrite IH. split; [eauto|tauto].
      * split; [discriminate|]. intros [[_ [c Hc]] _]. discriminate.
Qed.

Lemma paths_from_length (w : Upload.World) (keys : list string) :
  forall i, length (Upload.paths_from w i keys) = length keys.
Proof. induction keys; intros i; simpl; auto. Qed.




(** X14. With a file chooser shown, both environment variables set and not
    empty, every download read to its end and written, and the chooser
    accepting the files, [handle] returns: one temporary path per key, in
    the order of the keys, is appended to [tab._tempFilePaths] (taken as
    empty when it was undefined); each of these files is on the disk; the
    chooser found first among the modal states is cleared and is the one
    that receives exactly these paths; the result counts the keys; and
    nothing is removed. *)
Theorem upload_success (w : Upload.World) (env : Upload.Env)
    (modalStates : list Upload.ModalState) (s3Keys : list string)
    (m : Upload.Machine) (modalState : Upload.ModalState)
    (bucketName region : string) :
  List.find (fun state => String.eqb (Upload.modal_type state) "fileChooser")
            modalStates = Some modalState ->
  truthy (Upload.AWS_S3_BUCKET env) = Some bucketName ->
  truthy (Upload.AWS_REGION env) = Some region ->
  Upload.all_downloads_succeed w 0 s3Keys ->
  Upload.setFiles_fails w = false ->
  exists m',
    Upload.handle w env modalStates s3Keys m = (Upload.Returns, m')
    /\ Upload.tempFilePaths m'
       = Some (match Upload.tempFilePaths m with Some paths => paths | None => [] end
               ++ Upload.paths_from w 0 s3Keys)
    /\ length (Upload.paths_from w 0 s3Keys) = length s3Keys
    /\ (forall p, In p (Upload.paths_from w 0 s3Keys) ->
          is_Some (Upload.files m' !! p))
    /\ exists new,
         Upload.actions m' = Upload.actions m ++ new
         /\ Forall (fun a => Upload.removes a = false) new
         /\ In (Upload.ClearModalState modalState) new
         /\ In (Upload.SetFiles modalState (Upload.paths_from w 0 s3Keys)) new
         /\ last new = Some (Upload.AddResult (length s3Keys)).
Proof.
  intros Hfind Hb Hr Hall Hset. unfold Upload.handle.
  rewrite Hfind, Hb, Hr.
  set (m0 := Upload.act Upload.SetIncludeSnapshot m).
  pose proof (proj2 (download_ok_iff w bucketName region s3Keys 0 [] m0) Hall)
    as Hok.
  destruct (Upload.download w bucketName region 0 s3Keys [] m0)
    as [[oe lps] m1] eqn:Ed.
  simpl in Hok. subst oe.
  apply download_spec in Ed
    as (written & acts & Hl & Ha & Ht & Hrm & Hw & Hf & Hs & Ho).
  specialize (Ho eq_refl). subst written. simpl in Hl. subst lps.
  rewrite Hset. eexists. split; [reflexivity|]. simpl.
  split; [now rewrite Ht|].
  split; [apply paths_from_length|].
  split; [exact Hs|].
  exists ([Upload.SetIncludeSnapshot] ++ acts
          ++ [Upload.AddCode (Upload.paths_from w 0 s3Keys) s3Keys;
              Upload.ClearModalState modalState;
              Upload.SetFiles modalState (Upload.paths_from w 0 s3Keys);
              Upload.AddResult (length s3Keys)]).
  split; [|split; [|split; [|split]]].
  - rewrite Ha, paths_from_length. simpl. rewrite <- !app_assoc. reflexivity.
  - constructor; [reflexivity|]. apply Forall_app. split; [exact Hrm|].
    repeat constructor.
  - rewrite !in_app_iff. simpl. auto.
  - rewrite !in_app_iff. simpl. auto 6.
  - rewrite app_assoc, last_app_cons. reflexivity.
Qed.

Lemma sample_chooser_found :
  List.find (fun state => String.eqb (Upload.modal_type state) "fileChooser")
            UploadSamples.modalStates = Some UploadSamples.chooser.
Proof. reflexivity. Defined.

Lemma sample_downloads_succeed :
  Upload.all_downloads_succeed UploadSamples.generous 0 UploadSamples.s3Keys.
Proof. intros j _. split; [reflexivity|]. eexists. reflexivity. Defined.

Lemma upload_success_witness :
  List.find (fun state => String.eqb (Upload.modal_type state) "fileChooser")
            UploadSamples.modalStates = Some UploadSamples.chooser
  /\ truthy (Upload.AWS_S3_BUCKET UploadSamples.env) = Some "clinic"
  /\ truthy (Upload.AWS_REGION UploadSamples.env) = Some "eu-west-1"
  /\ Upload.all_downloads_succeed UploadSamples.generous 0 UploadSamples.s3Keys
  /\ Upload.setFiles_fails UploadSamples.generous = false
  /\ exists m',
       Upload.handle UploadSamples.generous UploadSamples.env
         UploadSamples.modalStates UploadSamples.s3Keys UploadSamples.fresh
       = (Upload.Returns, m')
       /\ Upload.tempFilePaths m'
          = Some (match Upload.tempFilePaths UploadSamples.fresh with
                  | Some paths => paths
                  | None => []
                  end
                  ++ Upload.paths_from UploadSamples.generous 0 UploadSamples.s3Keys)
       /\ length (Upload.paths_from UploadSamples.generous 0 UploadSamples.s3Keys)
          = length UploadSamples.s3Keys
       /\ (forall p,
             In p (Upload.paths_from UploadSamples.generous 0 UploadSamples.s3Keys) ->
             is_Some (Upload.files m' !! p))
       /\ exists new,
            Upload.actions m' = Upload.actions UploadSamples.fresh ++ new
            /\ Forall (fun a => Upload.removes a = false) new
            /\ In (Upload.ClearModalState UploadSamples.chooser) new
            /\ In (Upload.SetFiles UploadSamples.chooser
                     (Upload.paths_from UploadSamples.generous 0
                        UploadSamples.s3Keys)) new
            /\ last new = Some (Upload.AddResult (length UploadSamples.s3Keys)).
Proof.
  split; [exact sample_chooser_found|].
  split; [reflexivity|]. split; [reflexivity|].
  split; [exact sample_downloads_succeed|]. split; [reflexivity|].
  exact (upload_success UploadSamples.generous UploadSamples.env
           UploadSamples.modalStates UploadSamples.s3Keys UploadSamples.fresh
           UploadSamples.chooser "clinic" "eu-west-1"
           sample_chooser_found eq_refl eq_refl sample_downloads_succeed eq_refl).
Defined.

(** X15. [handle] returns normally only when nothing went wrong on the way:
    a file chooser was shown, both environment variables were set and not
    empty, every key was downloaded and written, and the chooser took the
    files. A missing body, a body that breaks off, a failed write or a
    rejected request for any one key makes the whole call throw. *)
Theorem upload_returns_only_after_all (w : Upload.World) (env : Upload.Env)
    (modalStates : list Upload.ModalState) (s3Keys : list string)
    (m m' : Upload.Machine) :
  Upload.handle w env modalStates s3Keys m = (Upload.Returns, m') ->
  (exists modalState,
     List.find (fun state => String.eqb (Upload.modal_type state) "fileChooser")
               modalStates = Some modalState
     /\ Upload.modal_type modalState = "fileChooser")
  /\ (exists bucketName, Upload.AWS_S3_BUCKET env = Some bucketName
                         /\ bucketName <> "")
  /\ (exists region, Upload.AWS_REGION env = Some region /\ region <> "")
  /\ Upload.all_downloads_succeed w 0 s3Keys
  /\ Upload.setFiles_fails w = false.
Proof.
  unfold Upload.handle.
  destruct (List.find _ modalStates) as [modalState|] eqn:Hfind; [|discriminate].
  destruct (truthy (Upload.AWS_S3_BUCKET env)) as [bucketName|] eqn:Hb;
    [|discriminate].
  destruct (truthy (Upload.AWS_REGION env)) as [region|] eqn:Hr; [|discriminate].
  set (m0 := Upload.act Upload.SetIncludeSnapshot m).
  pose proof (proj1 (download_ok_iff w bucketName region s3Keys 0 [] m0)) as Hok.
  destruct (Upload.download w bucketName region 0 s3Keys [] m0) as [[oe lps] m1].
  destruct oe as [error|]; [discriminate|].
  destruct (Upload.setFiles_fails w); [discriminate|].
  intros _. split; [|split; [|split; [|split]]].
  - exists modalState. split; [reflexivity|].
    apply find_some in Hfind as [_ H]. now apply String.eqb_eq.
  - exists bucketName. now apply truthy_Some.
  - exists region. now apply truthy_Some.
  - apply Hok. reflexivity.
  - reflexivity.
Qed.

Lemma sample_upload_returns :
  Upload.handle UploadSamples.generous UploadSamples.env
    UploadSamples.modalStates UploadSamples.s3Keys UploadSamples.fresh
  = (Upload.Returns, UploadSamples.after_success).
Proof. vm_compute. reflexivity. Defined.

Lemma upload_returns_only_after_all_witness :
  Upload.handle UploadSamples.generous UploadSamples.env
    UploadSamples.modalStates UploadSamples.s3Keys UploadSamples.fresh
  = (Upload.Returns, UploadSamples.after_success)
  /\ Upload.setFiles_fails UploadSamples.generous = false.
Proof.
  split; [exact sample_upload_returns|].
  exact (proj2 (proj2 (proj2 (proj2
    (upload_returns_only_after_all UploadSamples.generous UploadSamples.env
       UploadSamples.modalStates UploadSamples.s3Keys UploadSamples.fresh
       UploadSamples.after_success sample_upload_returns))))).
Defined.

(** * The runner script *)

Lemma wp_result (m : Runner.sh unit)
    (R : Runner.result unit * list Runner.entry -> Prop) (t : list Runner.entry) :
  Runner.wp m (fun a t' => R (Runner.Continue a, t'))
              (fun code t' => R (Runner.Exit code, t')) t ->
  R (m t).
Proof. unfold Runner.wp. destruct (m t) as [[a|code] t']; auto. Qed.

Lemma wp_ret {A} (a : A) Q E t : Q a t -> Runner.wp (mret a) Q E t.
Proof. auto. Qed.

Lemma wp_bind {A B} (m : Runner.sh A) (f : A -> Runner.sh B) Q E t :
  Runner.wp m (fun a t' => Runner.wp (f a) Q E t') E t ->
  Runner.wp (m ≫= f) Q E t.
Proof.
  unfold Runner.wp, mbind, Runner.sh_bind.
  destruct (m t) as [[a|code] t']; auto.
Qed.

Lemma wp_exit {A} (code : nat) (Q : A -> list Runner.entry -> Prop) E t :
  E code t -> Runner.wp (Runner.exit code) Q E t.
Proof. auto. Qed.

Lemma wp_tell (e : Runner.entry) Q E t :
  Q tt (t ++ [e]) -> Runner.wp (Runner.tell e) Q E t.
Proof. auto. Qed.

Lemma wp_invoke (w : Runner.World) (c : Runner.command) Q E t :
  Q (Runner.status w (length t) c) (t ++ [Runner.Ran c (Runner.status w (length t) c)]) ->
  Runner.wp (Runner.invoke w c) Q E t.
Proof. auto. Qed.

Lemma wp_simple (w : Runner.World) (c : Runner.command) Q E t :
  (Runner.status w (length t) c = 0%nat -> Q 0%nat (t ++ [Runner.Ran c 0])) ->
  (Runner.status w (length t) c <> 0%nat ->
   E (Runner.status w (length t) c)
     (t ++ [Runner.Ran c (Runner.status w (length t) c)])) ->
  Runner.wp (Runner.simple w c) Q E t.
Proof.
  intros H0 H1. unfold Runner.simple. apply wp_bind, wp_invoke.
  destruct (Nat.eqb_spec (Runner.status w (length t) c) 0) as [H|H].
  - rewrite H. apply wp_ret. auto.
  - apply wp_exit. auto.
Qed.

Lemma wp_read (w : Runner.World) Q E t :
  (Runner.status w (length t) Runner.read_reply = 0%nat ->
   Q (Runner.REPLY w (length t)) (t ++ [Runner.Ran Runner.read_reply 0])) ->
  (Runner.status w (length t) Runner.read_reply <> 0%nat ->
   E (Runner.status w (length t) Runner.read_reply)
     (t ++ [Runner.Ran Runner.read_reply
              (Runner.status w (length t) Runner.read_reply)])) ->
  Runner.wp (Runner.read w) Q E t.
Proof.
  intros H0 H1. unfold Runner.wp, Runner.read.
  pose proof (wp_simple w Runner.read_reply
                (fun _ t' => Q (Runner.REPLY w (length t)) t') E t H0 H1) as H.
  unfold Runner.wp in H.
  destruct (Runner.simple w Runner.read_reply t) as [[a|code] t']; auto.
Qed.

Ltac wp_step :=
  lazymatch goal with
  | |- Runner.wp (_ ≫= _) _ _ _ => apply wp_bind
  | |- Runner.wp (mret _) _ _ _ => apply wp_ret
  | |- Runner.wp (Runner.exit _) _ _ _ => apply wp_exit
  | |- Runner.wp (Runner.tell _) _ _ _ => apply wp_tell
  | |- Runner.wp (Runner.print_status _) _ _ _ => apply wp_tell
  | |- Runner.wp (Runner.print_success _) _ _ _ => apply wp_tell
  | |- Runner.wp (Runner.print_warning _) _ _ _ => apply wp_tell
  | |- Runner.wp (Runner.print_error _) _ _ _ => apply wp_tell
  | |- Runner.wp (Runner.echo _) _ _ _ => apply wp_tell
  | |- Runner.wp (Runner.invoke _ _) _ _ _ => apply wp_invoke
  | |- Runner.wp (Runner.simple _ _) _ _ _ => apply wp_simple; intros ?
  | |- Runner.wp (Runner.read _) _ _ _ => apply wp_read; intros ?
  | |- Runner.wp (if Nat.eqb 0 0 then _ else _) _ _ _ =>
      change (Nat.eqb 0 0) with true; cbv iota
  | |- Runner.wp (if negb (Nat.eqb ?x 0) then _ else _) _ _ _ =>
      destruct (Nat.eqb_spec x 0); cbn [negb]
  | |- Runner.wp (if Nat.eqb ?x 0 then _ else _) _ _ _ =>
      destruct (Nat.eqb_spec x 0)
  | |- Runner.wp (if ?b then _ else _) _ _ _ => destruct b eqn:?
  | |- Runner.wp (Runner.check_dependencies _) _ _ _ =>
      unfold Runner.check_dependencies
  | |- Runner.wp (Runner.show_help _) _ _ _ => unfold Runner.show_help
  | |- Runner.wp (Runner.set_COMPOSE_CMD _) _ _ _ => unfold Runner.set_COMPOSE_CMD
  | |- Runner.wp (Runner.start_service _ _) _ _ _ => unfold Runner.start_service
  | |- Runner.wp (Runner.stop_service _) _ _ _ => unfold Runner.stop_service
  | |- Runner.wp (Runner.show_logs _) _ _ _ => unfold Runner.show_logs
  | |- Runner.wp (Runner.show_status _) _ _ _ => unfold Runner.show_status
  | |- Runner.wp (Runner.run_health_check _) _ _ _ =>
      unfold Runner.run_health_check
  | |- Runner.wp (Runner.build_image _) _ _ _ => unfold Runner.build_image
  | |- Runner.wp (Runner.clean_up _) _ _ _ => unfold Runner.clean_up
  | |- Runner.wp (Runner.main _ _ _) _ _ _ => unfold Runner.main; cbv zeta
  end; cbv beta; cbn [app length].

Ltac wp_run R :=
  unfold Runner.script_run;
  match goal with
  | |- context [Runner.main ?w ?script ?args []] =>
      apply (wp_result (Runner.main w script args) R)
  end;
  repeat wp_step;
  unfold Runner.trace, Runner.exit_status; cbn [fst snd In last].

(** X16. Under [set -e] a Compose command that fails ends the script on
    the spot: the exit status of the script is the status of that command,
    and the command is the last thing in the trace. *)
Theorem failed_compose_ends_script (w : Runner.World) (script : string)
    (args : list string) (c : string) (a : list string) (k : nat) :
  In (Runner.Ran (Runner.compose c a) k)
     (Runner.trace (Runner.script_run w script args)) ->
  k <> 0%nat ->
  Runner.exit_status (Runner.script_run w script args) = k
  /\ last (Runner.trace (Runner.script_run w script args))
     = Some (Runner.Ran (Runner.compose c a) k).
Proof.
  wp_run (fun r =>
    In (Runner.Ran (Runner.compose c a) k) (Runner.trace r) ->
    k <> 0%nat ->
    Runner.exit_status r = k
    /\ last (Runner.trace r) = Some (Runner.Ran (Runner.compose c a) k)).
  all: intuition (try discriminate).
  all: simplify_eq.
  all: congruence.
Qed.

Lemma sample_up_fails :
  In (Runner.Ran (Runner.compose "docker compose" ["up"; "-d"]) 3)
     (Runner.trace
        (Runner.script_run RunnerSamples.up_fails RunnerSamples.script ["start"])).
Proof. vm_compute. do 5 right. left. reflexivity. Defined.

Lemma three_not_zero : 3%nat <> 0%nat.
Proof. discriminate. Defined.

Lemma failed_compose_ends_script_witness :
  In (Runner.Ran (Runner.compose "docker compose" ["up"; "-d"]) 3)
     (Runner.trace
        (Runner.script_run RunnerSamples.up_fails RunnerSamples.script ["start"]))
  /\ 3%nat <> 0%nat
  /\ Runner.exit_status
       (Runner.script_run RunnerSamples.up_fails RunnerSamples.script ["start"])
     = 3%nat.
Proof.
  split; [exact sample_up_fails|]. split; [exact three_not_zero|].
  exact (proj1 (failed_compose_ends_script RunnerSamples.up_fails
                  RunnerSamples.script ["start"] "docker compose" ["up"; "-d"] 3
                  sample_up_fails three_not_zero)).
Defined.

(** X17. The script prints three error messages at most: that Docker is
    missing, that Docker Compose is missing, and that the command is
    unknown. The reports that starting, stopping or building failed are
    never printed, whatever the commands return: the failing command has
    ended the script before its status is tested. *)
Theorem failure_reports_never_printed (w : Runner.World) (script : string)
    (args : list string) (msg : string) :
  In (Runner.Print Runner.ERROR msg)
     (Runner.trace (Runner.script_run w script args)) ->
  msg = "Docker is not installed or not in PATH"
  \/ msg = "Docker Compose is not installed or not in PATH"
  \/ msg = "Unknown command: " +:+ default "" (head args).
Proof.
  wp_run (fun r =>
    In (Runner.Print Runner.ERROR msg) (Runner.trace r) ->
    msg = "Docker is not installed or not in PATH"
    \/ msg = "Docker Compose is not installed or not in PATH"
    \/ msg = "Unknown command: " +:+ default "" (head args)).
  all: intuition (try discriminate).
  all: simplify_eq.
  all: auto.
Qed.

Lemma sample_unknown_command :
  In (Runner.Print Runner.ERROR "Unknown command: deploy")
     (Runner.trace
        (Runner.script_run RunnerSamples.all_well RunnerSamples.script ["deploy"])).
Proof. vm_compute. do 2 right. left. reflexivity. Defined.

Lemma failure_reports_never_printed_witness :
  In (Runner.Print Runner.ERROR "Unknown command: deploy")
     (Runner.trace
        (Runner.script_run RunnerSamples.all_well RunnerSamples.script ["deploy"]))
  /\ ("Unknown command: deploy" = "Docker is not installed or not in PATH"
      \/ "Unknown command: deploy" = "Docker Compose is not installed or not in PATH"
      \/ "Unknown command: deploy"
         = "Unknown command: " +:+ default "" (head ["deploy"])).
Proof.
  split; [exact sample_unknown_command|].
  exact (failure_reports_never_printed RunnerSamples.all_well
           RunnerSamples.script ["deploy"] "Unknown command: deploy"
           sample_unknown_command).
Defined.

Lemma check_dependencies_fails (w : Runner.World) :
  Runner.status w 0 (Runner.command_v "docker") <> 0%nat
  \/ (Runner.status w 1 (Runner.command_v "docker-compose") <> 0%nat
      /\ Runner.status w 2 Runner.docker_compose_version <> 0%nat) ->
  fst (Runner.check_dependencies w []) = Runner.Exit 1.
Proof.
  intros H.
  cbv [Runner.check_dependencies Runner.invoke Runner.print_error Runner.tell
       Runner.exit mbind Runner.sh_bind mret Runner.sh_ret].
  cbn [app length].
  destruct (Nat.eqb_spec (Runner.status w 0 (Runner.command_v "docker")) 0);
    cbn [negb app length]; [|reflexivity].
  destruct (Nat.eqb_spec (Runner.status w 1 (Runner.command_v "docker-compose")) 0);
    cbn [negb app length]; [tauto|].
  destruct (Nat.eqb_spec (Runner.status w 2 Runner.docker_compose_version) 0);
    cbn [negb app length]; [tauto|reflexivity].
Qed.

(** X18. The dependencies are checked before the arguments are looked at:
    when Docker is missing, or when neither [docker-compose] nor
    [docker compose] answers, the script exits with status 1 and its run is
    the same whatever the arguments, the request for help included. *)
Theorem missing_dependency_ignores_arguments (w : Runner.World)
    (script : string) (args : list string) :
  Runner.status w 0 (Runner.command_v "docker") <> 0%nat
  \/ (Runner.status w 1 (Runner.command_v "docker-compose") <> 0%nat
      /\ Runner.status w 2 Runner.docker_compose_version <> 0%nat) ->
  Runner.script_run w script args = Runner.script_run w script ["help"]
  /\ Runner.exit_status (Runner.script_run w script args) = 1%nat
  /\ Forall (fun e => forall line, e <> Runner.Echo line)
            (Runner.trace (Runner.script_run w script args)).
Proof.
  intros H. apply check_dependencies_fails in H.
  assert (Hrun : forall args',
    Runner.script_run w script args'
    = (Runner.Exit 1, snd (Runner.check_dependencies w []))).
  { intros args'. unfold Runner.script_run, Runner.main, mbind, Runner.sh_bind.
    destruct (Runner.check_dependencies w []) as [[a|code] t]; simpl in H.
    - discriminate.
    - injection H as ->. reflexivity. }
  rewrite !Hrun. split; [reflexivity|]. split; [reflexivity|].
  unfold Runner.trace. cbn [snd].
  apply (wp_result (Runner.check_dependencies w)
    (fun r => Forall (fun e => forall line, e <> Runner.Echo line) (snd r))).
  repeat wp_step; cbn [snd]; repeat constructor; discriminate.
Qed.

Lemma sample_no_docker :
  Runner.status RunnerSamples.no_docker 0 (Runner.command_v "docker") <> 0%nat
  \/ (Runner.status RunnerSamples.no_docker 1 (Runner.command_v "docker-compose")
      <> 0%nat
      /\ Runner.status RunnerSamples.no_docker 2 Runner.docker_compose_version
         <> 0%nat).
Proof. left. discriminate. Defined.

Lemma missing_dependency_ignores_arguments_witness :
  (Runner.status RunnerSamples.no_docker 0 (Runner.command_v "docker") <> 0%nat
   \/ (Runner.status RunnerSamples.no_docker 1 (Runner.command_v "docker-compose")
       <> 0%nat
       /\ Runner.status RunnerSamples.no_docker 2 Runner.docker_compose_version
          <> 0%nat))
  /\ Runner.script_run RunnerSamples.no_docker RunnerSamples.script ["start"]
     = Runner.script_run RunnerSamples.no_docker RunnerSamples.script ["help"].
Proof.
  split; [exact sample_no_docker|].
  exact (proj1 (missing_dependency_ignores_arguments RunnerSamples.no_docker
                  RunnerSamples.script ["start"] sample_no_docker)).
Defined.

Lemma word_is (args : list string) (name : string) :
  name <> "help" ->
  Runner.matches
    match head args with
    | Some a => if String.eqb a "" then "help" else a
    | None => "help"
    end [name] = true ->
  head args = Some name.
Proof.
  intros Hn. unfold Runner.matches. simpl. rewrite orb_false_r.
  destruct (head args) as [a|].
  - destruct (String.eqb_spec a "").
    + intros H%String.eqb_eq. congruence.
    + intros H%String.eqb_eq. congruence.
  - intros H%String.eqb_eq. congruence.
Qed.

(** X19. Containers, networks and volumes are removed only on request and
    after a yes: [down -v --remove-orphans] is run only when the first
    argument is [clean], [read] has succeeded, and what it stored in
    [REPLY] is [Y] or [y]. *)
Theorem volumes_removed_only_after_yes (w : Runner.World) (script : string)
    (args : list string) (c : string) (k : nat) :
  In (Runner.Ran (Runner.compose c ["down"; "-v"; "--remove-orphans"]) k)
     (Runner.trace (Runner.script_run w script args)) ->
  head args = Some "clean"
  /\ exists n,
       Runner.trace (Runner.script_run w script args) !! n
       = Some (Runner.Ran Runner.read_reply 0)
       /\ (Runner.REPLY w n = "Y" \/ Runner.REPLY w n = "y").
Proof.
  wp_run (fun r =>
    In (Runner.Ran (Runner.compose c ["down"; "-v"; "--remove-orphans"]) k)
       (Runner.trace r) ->
    head args = Some "clean"
    /\ exists n,
         Runner.trace r !! n = Some (Runner.Ran Runner.read_reply 0)
         /\ (Runner.REPLY w n = "Y" \/ Runner.REPLY w n = "y")).
  all: intros Hin; repeat (destruct Hin as [Hin|Hin]; try discriminate Hin);
    try contradiction.
  all: (split; [apply word_is; [discriminate|assumption]|]).
  all: match goal with
       | H : Runner.says_yes (Runner.REPLY _ ?n) = true |- _ =>
           exists n; split; [reflexivity|];
           unfold Runner.says_yes in H; apply orb_true_iff in H;
           destruct H as [H%String.eqb_eq|H%String.eqb_eq]; auto
       end.
Qed.

Lemma sample_clean :
  In (Runner.Ran (Runner.compose "docker compose"
                    ["down"; "-v"; "--remove-orphans"]) 0)
     (Runner.trace
        (Runner.script_run RunnerSamples.all_well RunnerSamples.script ["clean"])).
Proof. vm_compute. do 7 right. left. reflexivity. Defined.

Lemma volumes_removed_only_after_yes_witness :
  In (Runner.Ran (Runner.compose "docker compose"
                    ["down"; "-v"; "--remove-orphans"]) 0)
     (Runner.trace
        (Runner.script_run RunnerSamples.all_well RunnerSamples.script ["clean"]))
  /\ head ["clean"] = Some "clean".
Proof.
  split; [exact sample_clean|].
  exact (proj1 (volumes_removed_only_after_yes RunnerSamples.all_well
                  RunnerSamples.script ["clean"] "docker compose" 0 sample_clean)).
Defined.

(** X20. The server is never started after a stop that failed: in a run
    where [up -d] is reached, every [down] before it returned 0. So
    [restart] with a failing [down] stops there, without [sleep] and
    without [up]. *)
Theorem start_only_after_clean_stop (w : Runner.World) (script : string)
    (args : list string) (c c' : string) (k k' : nat) :
  In (Runner.Ran (Runner.compose c ["up"; "-d"]) k)
     (Runner.trace (Runner.script_run w script args)) ->
  In (Runner.Ran (Runner.compose c' ["down"]) k')
     (Runner.trace (Runner.script_run w script args)) ->
  k' = 0%nat
  /\ In (Runner.Ran Runner.sleep_2 0)
        (Runner.trace (Runner.script_run w script args))
  /\ head args = Some "restart".
Proof.
  wp_run (fun r =>
    In (Runner.Ran (Runner.compose c ["up"; "-d"]) k) (Runner.trace r) ->
    In (Runner.Ran (Runner.compose c' ["down"]) k') (Runner.trace r) ->
    k' = 0%nat
    /\ In (Runner.Ran Runner.sleep_2 0) (Runner.trace r)
    /\ head args = Some "restart").
  all: intros Hup Hdown;
    repeat (destruct Hup as [Hup|Hup]; try discriminate Hup);
    try contradiction.
  all: repeat (destruct Hdown as [Hdown|Hdown]; try discriminate Hdown);
    try contradiction.
  all: (split; [congruence|split; [cbn [In]; tauto|]]).
  all: apply word_is; [discriminate|assumption].
Qed.

Lemma sample_restart_up :
  In (Runner.Ran (Runner.compose "docker compose" ["up"; "-d"]) 0)
     (Runner.trace
        (Runner.script_run RunnerSamples.all_well RunnerSamples.script ["restart"])).
Proof. vm_compute. do 10 right. left. reflexivity. Defined.

Lemma sample_restart_down :
  In (Runner.Ran (Runner.compose "docker compose" ["down"]) 0)
     (Runner.trace
        (Runner.script_run RunnerSamples.all_well RunnerSamples.script ["restart"])).
Proof. vm_compute. do 4 right. left. reflexivity. Defined.

Lemma start_only_after_clean_stop_witness :
  In (Runner.Ran (Runner.compose "docker compose" ["up"; "-d"]) 0)
     (Runner.trace
        (Runner.script_run RunnerSamples.all_well RunnerSamples.script ["restart"]))
  /\ In (Runner.Ran (Runner.compose "docker compose" ["down"]) 0)
        (Runner.trace
           (Runner.script_run RunnerSamples.all_well RunnerSamples.script
              ["restart"]))
  /\ In (Runner.Ran Runner.sleep_2 0)
        (Runner.trace
           (Runner.script_run RunnerSamples.all_well RunnerSamples.script
              ["restart"])).
Proof.
  split; [exact sample_restart_up|]. split; [exact sample_restart_down|].
  exact (proj1 (proj2 (start_only_after_clean_stop RunnerSamples.all_well
                         RunnerSamples.script ["restart"]
                         "docker compose" "docker compose" 0 0
                         sample_restart_up sample_restart_down))).
Defined.
